(** * HomeLoanComparison: the month-by-month loan simulator

    A shallow embedding of [emi] and [simulateLoan] of the dual loan
    comparator, and the properties of the amortization schedule they
    produce.

    Number model.  The source computes on JavaScript numbers.  Here a
    number is an exact rational ([Q]); comparisons are the decidable ones
    of [QArith] and [Math.max] / [Math.min] are [Qmax] / [Qmin].  Rounding,
    infinities and NaN are outside the model.  Two rationals that denote the
    same value may differ as fractions, so arithmetic facts are stated with
    [==] and structural facts (a field copied from one place to another)
    with [=].  The month counter only ever holds 0, 1, 2, ... and is a
    [nat].  [Math.pow] is a library function on floating point numbers: it
    is a parameter of the development, and every theorem holds for any
    implementation of it. *)

From Stdlib Require Import String DecimalString.
From Stdlib Require Import QArith Qminmax Qround Qpower ZArith List Lia Lqa Bool.
Import ListNotations.

Local Open Scope Q_scope.

(** ** Numbers *)

(** [a > b] on numbers, as a boolean. *)
Definition Qgtb (a b : Q) : bool := negb (Qle_bool a b).

(** A month counter as a number. *)
Definition ofNat (k : nat) : Q := inject_Z (Z.of_nat k).

(** Rounding toward zero, and the remainder [x % y] it defines
    ([x - y * trunc (x / y)], the sign following the dividend). *)
Definition Qtrunc (x : Q) : Z := Z.quot (Qnum x) (Zpos (Qden x)).

Definition Qrem (x y : Q) : Q := x - y * inject_Z (Qtrunc (x / y)).

(** [x || 0] on a number: 0 stays 0, everything else is itself. *)
Definition orZero (x : Q) : Q := if Qeq_bool x 0 then 0 else x.

(** An exact power for whole exponents, used to run the model. *)
Definition powZ (b e : Q) : Q := Qpower b (Qfloor e).

(** ** Types *)

Inductive StepUpMode : Set :=
  | none
  | monthly_add
  | yearly_percent.

Record StepUpConfig : Set := mkStepUp {
  mode : StepUpMode;
  value : Q
}.

Record PrepayConfig : Set := mkPrepay {
  oneTimeAmount : Q;
  oneTimeMonth : Q;
  recurringAnnualAmount : Q
}.

Record ODConfig : Set := mkOD {
  enabled : bool;
  startSavings : Q;
  monthlyIncrement : Q;
  partFromSavingsEveryYYears : Q;
  partAmountEachTime : Q
}.

Record LoanInput : Set := mkInput {
  label : string;
  principal : Q;
  years : Q;
  monthsExtra : Q;
  annualRate : Q;
  stepUp : StepUpConfig;
  prepay : PrepayConfig;
  od : ODConfig
}.

Record MonthRow : Set := mkRow {
  monthIndex : nat;
  year : nat;
  openingPrincipal : Q;
  savingsBalance : Q;
  effectivePrincipal : Q;
  rateMonthly : Q;
  interest : Q;
  scheduledEmi : Q;
  principalPaid : Q;
  prepayment : Q;
  closingPrincipal : Q;
  closingSavings : Q
}.

Record SimulationResult : Set := mkResult {
  rows : list MonthRow;
  totalInterest : Q;
  totalPaid : Q;
  months : nat;
  payoffDateNote : string
}.

(** The variables [simulateLoan] mutates while it runs: [bal], [savings],
    [schedEmi], [m], and the two accumulators [rows] and [totalInterest]
    (here [rowsSoFar] and [interestSoFar]). *)
Record SimState : Set := mkState {
  bal : Q;
  savings : Q;
  schedEmi : Q;
  m : nat;
  rowsSoFar : list MonthRow;
  interestSoFar : Q
}.

Definition mode_eqb (a b : StepUpMode) : bool :=
  match a, b with
  | none, none | monthly_add, monthly_add | yearly_percent, yearly_percent => true
  | _, _ => false
  end.

Definition showNat (k : nat) : string := NilZero.string_of_uint (Nat.to_uint k).

(** ** Sums over rows *)

(** [rows.reduce((sum, r) => sum + f(r), 0)]. *)
Definition sumRows (f : MonthRow -> Q) (rs : list MonthRow) : Q :=
  fold_left (fun sum r => sum + f r) rs 0.

(** ** What the page computes from a result *)

(** [SummaryCard]: the three values it computes before it renders, and the
    payoff time it renders from them ([{yrs}y {mos}m]). *)
Record SummaryValues : Set := mkSummary {
  yrs : nat;
  mos : nat;
  initialEmi : Q
}.

Definition SummaryCard (result : SimulationResult) : SummaryValues :=
  {| yrs := (months result / 12)%nat;
     mos := (months result mod 12)%nat;
     (* result.rows[0]?.scheduledEmi ?? 0 *)
     initialEmi :=
       match nth_error (rows result) 0 with
       | Some r => scheduledEmi r
       | None => 0
       end |}.

Definition payoffTime (v : SummaryValues) : string :=
  (showNat (yrs v) ++ "y " ++ showNat (mos v) ++ "m")%string.

(** [Insights]: the values it computes before it renders.  The months are
    whole numbers, so [Math.abs] of their difference is one too. *)
Record InsightValues : Set := mkInsights {
  interestDiff : Q;
  faster : string;
  fasterBy : nat;
  fasterYrs : nat;
  fasterMos : nat
}.

Definition Insights (A B : SimulationResult) (labelA labelB : string)
  : InsightValues :=
  let fasterBy1 := Z.abs_nat (Z.of_nat (months A) - Z.of_nat (months B)) in
  {| interestDiff := totalInterest A - totalInterest B;
     faster :=
       if (months A <? months B)%nat then labelA
       else if (months B <? months A)%nat then labelB
       else "Both equal"%string;
     fasterBy := fasterBy1;
     fasterYrs := (fasterBy1 / 12)%nat;
     fasterMos := (fasterBy1 mod 12)%nat |}.

(** [effectiveRate].  [eff] is a quotient times 100: with numbers that are
    exact it fails to be finite exactly when the divisor is 0, and then
    [isFinite] makes the result 0. *)
Definition effectiveRate (sim : SimulationResult) (input : LoanInput) : Q :=
  let yrs1 := ofNat (months sim) / 12 in
  let avgOutstanding := principal input / 2 in
  if Qeq_bool (avgOutstanding * yrs1) 0 then 0
  else (totalInterest sim / (avgOutstanding * yrs1)) * 100.

(** ** Chart data *)

(** A value of a chart point: a number or [null]. *)
Inductive ChartValue : Set :=
  | Num (q : Q)
  | Null.

(** A chart point is an object with computed keys: its properties in the
    order they were first set; setting a key again replaces the value. *)
Definition ChartPoint : Set := list (string * ChartValue).

Fixpoint setProp (k : string) (v : ChartValue) (o : ChartPoint) : ChartPoint :=
  match o with
  | [] => [(k, v)]
  | (k', v') :: o' =>
      if String.eqb k k' then (k, v) :: o' else (k', v') :: setProp k v o'
  end.

Fixpoint getProp (k : string) (o : ChartPoint) : option ChartValue :=
  match o with
  | [] => None
  | (k', v') :: o' => if String.eqb k k' then Some v' else getProp k o'
  end.

(** [rows[i]?.f ?? null]. *)
Definition rowField (f : MonthRow -> Q) (rs : list MonthRow) (i : nat)
  : ChartValue :=
  match nth_error rs i with
  | Some r => Num (f r)
  | None => Null
  end.

(** The object literal of [mergeForChart], property by property. *)
Definition chartPoint (A B : SimulationResult) (labelA labelB : string)
  (i : nat) : ChartPoint :=
  let o := setProp "m" (Num (ofNat (i + 1))) [] in
  let o := setProp (labelA ++ " Principal") (rowField closingPrincipal (rows A) i) o in
  let o := setProp (labelB ++ " Principal") (rowField closingPrincipal (rows B) i) o in
  let o := setProp (labelA ++ " Savings") (rowField closingSavings (rows A) i) o in
  let o := setProp (labelB ++ " Savings") (rowField closingSavings (rows B) i) o in
  let o := setProp (labelA ++ " Interest") (rowField interest (rows A) i) o in
  let o := setProp (labelB ++ " Interest") (rowField interest (rows B) i) o in
  o.

(** The [for] loop of [mergeForChart], [todo] passes from index [i] on. *)
Fixpoint mergeLoop (A B : SimulationResult) (labelA labelB : string)
  (todo i : nat) (data : list ChartPoint) : list ChartPoint :=
  match todo with
  | O => data
  | S todo' =>
      mergeLoop A B labelA labelB todo' (S i)
                (data ++ [chartPoint A B labelA labelB i])
  end.

Definition mergeForChart (A B : SimulationResult) (labelA labelB : string)
  : list ChartPoint :=
  let maxLen := Nat.max (length (rows A)) (length (rows B)) in
  mergeLoop A B labelA labelB maxLen 0 [].

(** The last character of a string, to tell keys apart. *)
Fixpoint lastChar (s : string) : option Ascii.ascii :=
  match s with
  | EmptyString => None
  | String c EmptyString => Some c
  | String _ s' => lastChar s'
  end.

(** ** The editors *)

(** [{ ...value, od: o }]. *)
Definition withOD (value : LoanInput) (o : ODConfig) : LoanInput :=
  {| label := label value; principal := principal value;
     years := years value; monthsExtra := monthsExtra value;
     annualRate := annualRate value; stepUp := stepUp value;
     prepay := prepay value; od := o |}.

Definition withPrepay (value : LoanInput) (p : PrepayConfig) : LoanInput :=
  {| label := label value; principal := principal value;
     years := years value; monthsExtra := monthsExtra value;
     annualRate := annualRate value; stepUp := stepUp value;
     prepay := p; od := od value |}.

Definition withStepUp (value : LoanInput) (s : StepUpConfig) : LoanInput :=
  {| label := label value; principal := principal value;
     years := years value; monthsExtra := monthsExtra value;
     annualRate := annualRate value; stepUp := s;
     prepay := prepay value; od := od value |}.

(** [Math.floor(n)] as a number. *)
Definition floorQ (n : Q) : Q := inject_Z (Qfloor n).

(** The change handlers of the four editors: one constructor for each
    input, carrying what the input delivers.  [applyEdit current e] is the
    configuration the handler passes on, [current] being the editor's
    [value]. *)
Inductive Edit : Set :=
  | EditPrincipal (n : Q)
  | EditYears (n : Q)
  | EditMonthsExtra (n : Q)
  | EditAnnualRate (n : Q)
  | EditStepUpMode (md : StepUpMode)
  | EditStepUpValue (n : Q)
  | EditOneTimeAmount (n : Q)
  | EditOneTimeMonth (n : Q)
  | EditRecurringAnnualAmount (n : Q)
  | EditEnabled (checked : bool)
  | EditStartSavings (n : Q)
  | EditMonthlyIncrement (n : Q)
  | EditPartFromSavingsEveryYYears (n : Q)
  | EditPartAmountEachTime (n : Q).

Definition applyEdit (current : LoanInput) (e : Edit) : LoanInput :=
  let s := stepUp current in
  let p := prepay current in
  let o := od current in
  match e with
  | EditPrincipal n =>
      {| label := label current; principal := Qmax 0 n;
         years := years current; monthsExtra := monthsExtra current;
         annualRate := annualRate current; stepUp := s; prepay := p; od := o |}
  | EditYears n =>
      {| label := label current; principal := principal current;
         years := Qmax 0 (floorQ n); monthsExtra := monthsExtra current;
         annualRate := annualRate current; stepUp := s; prepay := p; od := o |}
  | EditMonthsExtra n =>
      {| label := label current; principal := principal current;
         years := years current; monthsExtra := Qmax 0 (floorQ n);
         annualRate := annualRate current; stepUp := s; prepay := p; od := o |}
  | EditAnnualRate n =>
      {| label := label current; principal := principal current;
         years := years current; monthsExtra := monthsExtra current;
         annualRate := Qmax 0 n; stepUp := s; prepay := p; od := o |}
  | EditStepUpMode md => withStepUp current (mkStepUp md (value s))
  | EditStepUpValue n => withStepUp current (mkStepUp (mode s) n)
  | EditOneTimeAmount n =>
      withPrepay current
        (mkPrepay (Qmax 0 n) (oneTimeMonth p) (recurringAnnualAmount p))
  | EditOneTimeMonth n =>
      withPrepay current
        (mkPrepay (oneTimeAmount p) (Qmax 0 (floorQ n))
                  (recurringAnnualAmount p))
  | EditRecurringAnnualAmount n =>
      withPrepay current (mkPrepay (oneTimeAmount p) (oneTimeMonth p) (Qmax 0 n))
  | EditEnabled checked =>
      withOD current
        (mkOD checked (startSavings o) (monthlyIncrement o)
              (partFromSavingsEveryYYears o) (partAmountEachTime o))
  | EditStartSavings n =>
      withOD current
        (mkOD (enabled o) (Qmax 0 n) (monthlyIncrement o)
              (partFromSavingsEveryYYears o) (partAmountEachTime o))
  | EditMonthlyIncrement n =>
      withOD current
        (mkOD (enabled o) (startSavings o) n
              (partFromSavingsEveryYYears o) (partAmountEachTime o))
  | EditPartFromSavingsEveryYYears n =>
      withOD current
        (mkOD (enabled o) (startSavings o) (monthlyIncrement o)
              (Qmax 0 (floorQ n)) (partAmountEachTime o))
  | EditPartAmountEachTime n =>
      withOD current
        (mkOD (enabled o) (startSavings o) (monthlyIncrement o)
              (partFromSavingsEveryYYears o) (Qmax 0 n))
  end.

(** The two loans the page opens with. *)
Definition loanA : LoanInput :=
  mkInput "Loan A" 7500000 25 0 (77 # 10)
          (mkStepUp none 0) (mkPrepay 0 0 0)
          (mkOD true 500000 10000 2 200000).

Definition loanB : LoanInput :=
  mkInput "Loan B" 7500000 25 0 (75 # 10)
          (mkStepUp yearly_percent 5) (mkPrepay 0 0 100000)
          (mkOD false 0 0 0 0).

(** A number that is one of 0, 1, 2, ... *)
Definition whole (x : Q) : Prop := exists k : nat, x == ofNat k.

(** The ranges the editors keep a configuration in. *)
Definition inRange (c : LoanInput) : Prop :=
  0 <= principal c
  /\ whole (years c) /\ whole (monthsExtra c)
  /\ 0 <= annualRate c
  /\ 0 <= oneTimeAmount (prepay c)
  /\ whole (oneTimeMonth (prepay c))
  /\ 0 <= recurringAnnualAmount (prepay c)
  /\ 0 <= startSavings (od c)
  /\ whole (partFromSavingsEveryYYears (od c))
  /\ 0 <= partAmountEachTime (od c).

(** ** Configurations the development is run on *)

Definition noOD : ODConfig := mkOD false 0 0 0 0.

(** 300000 over 3 months at 0 %, the payment stepped up by 1000 a month. *)
Definition cfgMonthlyAdd : LoanInput :=
  mkInput "monthly add" 300000 0 3 0
          (mkStepUp monthly_add 1000) (mkPrepay 0 0 0) noOD.

(** 300000 over 3 months at 0 %, nothing else. *)
Definition cfgPlain : LoanInput :=
  mkInput "plain" 300000 0 3 0 (mkStepUp none 0) (mkPrepay 0 0 0) noOD.

(** 1000 at 12 % with a tenure of 0 months. *)
Definition cfgZeroTenure : LoanInput :=
  mkInput "zero tenure" 1000 0 0 12 (mkStepUp none 0) (mkPrepay 0 0 0) noOD.

(** No principal. *)
Definition cfgNoPrincipal : LoanInput :=
  mkInput "no principal" 0 20 0 12 (mkStepUp none 0) (mkPrepay 0 0 0) noOD.

(** 1000 over 2 months at 0 %, a one-time prepayment of 500 in month 5. *)
Definition cfgLatePrepay : LoanInput :=
  mkInput "late prepay" 1000 0 2 0 (mkStepUp none 0) (mkPrepay 500 5 0) noOD.

(** 300000 over 3 months at 0 %, a one-time prepayment of 50000 in month 1. *)
Definition cfgPrepay : LoanInput :=
  mkInput "prepay" 300000 0 3 0 (mkStepUp none 0) (mkPrepay 50000 1 0) noOD.

(** 1000 at 12 % with a tenure of 0 months, prepaid in full in month 0. *)
Definition cfgPrepaidAtOnce : LoanInput :=
  mkInput "prepaid" 1000 0 0 12 (mkStepUp none 0) (mkPrepay 1000 0 0) noOD.

(** 2400 over 200 years at 0 %: a payment of 1 a month. *)
Definition cfgLong : LoanInput :=
  mkInput "long" 2400 200 0 0 (mkStepUp none 0) (mkPrepay 0 0 0) noOD.


(** 300000 over 3 months at 12 %, with 200000 of savings offsetting it. *)
Definition cfgOffset : LoanInput :=
  mkInput "offset" 300000 0 3 12 (mkStepUp none 0) (mkPrepay 0 0 0)
          (mkOD true 200000 1000 1 5000).

Section Simulator.

(** [Math.pow]. *)
Variable pow : Q -> Q -> Q.

(** ** The annuity calculator *)

Definition emi (P r N : Q) : Q :=
  if Qle_bool P 0 || Qle_bool N 0 then 0
  else if Qeq_bool r 0 then P / N
  else
    let f := pow (1 + r) N in
    (P * r * f) / (f - 1).

(** ** Core simulation *)

Section Run.

Variable input : LoanInput.

Definition totalTenureMonths : Q := years input * 12 + monthsExtra input.

Definition rMonthlyBase : Q := annualRate input / 1200.

Definition baseEmi : Q := emi (principal input) rMonthlyBase totalTenureMonths.

(** The closure [applyStepUp]: it reads the variable [schedEmi] and, in the
    yearly mode, assigns it.  The result is the returned value paired with
    [schedEmi] as the call leaves it. *)
Definition applyStepUp (month : nat) (cur : Q) : Q * Q :=
  if mode_eqb (mode (stepUp input)) monthly_add && Qgtb (value (stepUp input)) 0
  then (cur + value (stepUp input), cur)
  else if mode_eqb (mode (stepUp input)) yearly_percent
          && Qgtb (value (stepUp input)) 0
  then
    let cur' :=
      if (0 <? month)%nat && (month mod 12 =? 0)%nat
      then cur * (1 + value (stepUp input) / 100)
      else cur in
    (cur', cur')
  else (cur, cur).

Definition computePrepay (month : nat) : Q :=
  let extra := 0 in
  let extra :=
    if Qgtb (oneTimeAmount (prepay input)) 0
       && Qeq_bool (ofNat month) (oneTimeMonth (prepay input))
    then extra + oneTimeAmount (prepay input) else extra in
  let extra :=
    if Qgtb (recurringAnnualAmount (prepay input)) 0
       && (0 <? month)%nat && (month mod 12 =? 0)%nat
    then extra + recurringAnnualAmount (prepay input) else extra in
  extra.

Definition fromSavingsIntervalMonths : Q :=
  Qmax 0 (orZero (partFromSavingsEveryYYears (od input)) * 12).

(** The loop test [bal > 0 && m < 1200]. *)
Definition loopCond (st : SimState) : bool :=
  Qgtb (bal st) 0 && (m st <? 1200)%nat.

(** The loop body up to [rows.push]: the month's locals, in the order the
    source computes them, and the row made of them. *)
Definition monthRow (st : SimState) : MonthRow :=
  (* schedEmi = applyStepUp(m) *)
  let schedEmi1 := fst (applyStepUp (m st) (schedEmi st)) in
  let savings1 :=
    if enabled (od input) && negb (Qeq_bool (monthlyIncrement (od input)) 0)
    then Qmax 0 (savings st + monthlyIncrement (od input))
    else savings st in
  let effectivePrincipal1 :=
    Qmax 0 (bal st - (if enabled (od input) then savings1 else 0)) in
  let interest1 := effectivePrincipal1 * rMonthlyBase in
  let extraPrepay := computePrepay (m st) in
  let transferable := Qmin (partAmountEachTime (od input)) savings1 in
  let transfers :=
    enabled (od input)
    && Qgtb fromSavingsIntervalMonths 0
    && (0 <? m st)%nat
    && Qeq_bool (Qrem (ofNat (m st)) fromSavingsIntervalMonths) 0
    && Qgtb transferable 0 in
  let extraPrepay2 :=
    if transfers then extraPrepay + transferable else extraPrepay in
  let savings2 := if transfers then savings1 - transferable else savings1 in
  let dueThisMonth := Qmin schedEmi1 (bal st + interest1) in
  let principalPaid1 := Qmax 0 (dueThisMonth - interest1) in
  let capPrepay := Qmin extraPrepay2 (Qmax 0 (bal st - principalPaid1)) in
  let closingPrincipal1 := Qmax 0 (bal st - principalPaid1 - capPrepay) in
  {| monthIndex := m st;
     year := (m st / 12 + 1)%nat;
     openingPrincipal := bal st;
     savingsBalance := savings2;
     effectivePrincipal := effectivePrincipal1;
     rateMonthly := rMonthlyBase;
     interest := interest1;
     scheduledEmi := dueThisMonth;
     principalPaid := principalPaid1;
     prepayment := capPrepay;
     closingPrincipal := closingPrincipal1;
     closingSavings := savings2 |}.

(** One pass through the loop body: the row is pushed, and the variables
    take the month's values ([schedEmi] the value [applyStepUp] returned,
    [savings] the balance after the transfer, [bal] the closing
    principal). *)
Definition monthStep (st : SimState) : SimState :=
  let row := monthRow st in
  {| bal := closingPrincipal row;
     savings := closingSavings row;
     schedEmi := fst (applyStepUp (m st) (schedEmi st));
     m := S (m st);
     rowsSoFar := rowsSoFar st ++ [row];
     interestSoFar := interestSoFar st + interest row |}.

(** The [while] loop, with a bound on the number of passes. *)
Fixpoint while (fuel : nat) (st : SimState) : SimState :=
  match fuel with
  | O => st
  | S fuel' => if loopCond st then while fuel' (monthStep st) else st
  end.

Definition initState : SimState :=
  {| bal := principal input;
     savings := if enabled (od input) then startSavings (od input) else 0;
     schedEmi := baseEmi;
     m := O;
     rowsSoFar := [];
     interestSoFar := 0 |}.

(** The state the loop leaves.  [m] grows by one in each pass and the test
    needs [m < 1200], so 1200 passes are all the loop can make
    (see [while_fuel_irrelevant]). *)
Definition finalState : SimState := while 1200 initState.

Definition simulateLoan : SimulationResult :=
  let st := finalState in
  let months1 := m st in
  let yearsPart := (months1 / 12)%nat in
  let remMonths := (months1 mod 12)%nat in
  {| rows := rowsSoFar st;
     totalInterest := interestSoFar st;
     totalPaid :=
       fold_left (fun sum r => sum + scheduledEmi r + prepayment r)
                 (rowsSoFar st) 0;
     months := months1;
     payoffDateNote := (showNat yearsPart ++ "y " ++ showNat remMonths ++ "m")%string |}.

(** The rows [while fuel st] pushes, oldest first. *)
Fixpoint emitted (fuel : nat) (st : SimState) : list MonthRow :=
  match fuel with
  | O => []
  | S fuel' =>
      if loopCond st then monthRow st :: emitted fuel' (monthStep st) else []
  end.

(** Configurations without a step-up, without prepayments, without the
    savings offset: what the guards of [applyStepUp], [computePrepay] and
    the [od.enabled] tests let through. *)
Definition noStepUp : Prop :=
  mode (stepUp input) = none \/ value (stepUp input) <= 0.

Definition noPrepay : Prop :=
  oneTimeAmount (prepay input) <= 0 /\ recurringAnnualAmount (prepay input) <= 0.

Definition noOffset : Prop := enabled (od input) = false.

(** The first month's interest: [effectivePrincipal * rMonthlyBase] in the
    initial state. *)
Definition firstInterest : Q := interest (monthRow initState).

(** Names for three values the body computes on its way: the savings
    balance after the monthly increment (the one the effective principal is
    taken from), the amount the periodic transfer moves out of it, and the
    recurring share of [computePrepay]. *)
Definition savingsAfterIncrement (st : SimState) : Q :=
  if enabled (od input) && negb (Qeq_bool (monthlyIncrement (od input)) 0)
  then Qmax 0 (savings st + monthlyIncrement (od input))
  else savings st.

Definition transferAmount (st : SimState) : Q :=
  let transferable :=
    Qmin (partAmountEachTime (od input)) (savingsAfterIncrement st) in
  if enabled (od input)
     && Qgtb fromSavingsIntervalMonths 0
     && (0 <? m st)%nat
     && Qeq_bool (Qrem (ofNat (m st)) fromSavingsIntervalMonths) 0
     && Qgtb transferable 0
  then transferable else 0.

Definition recurringPrepay (month : nat) : Q :=
  if Qgtb (recurringAnnualAmount (prepay input)) 0
     && (0 <? month)%nat && (month mod 12 =? 0)%nat
  then recurringAnnualAmount (prepay input) else 0.

(** ** Numbers: basic facts *)

Lemma Qgtb_true (a b : Q) : Qgtb a b = true <-> b < a.
Proof.
  unfold Qgtb. rewrite negb_true_iff. split; intro H.
  - apply Qnot_le_lt. intro Hle. apply Qle_bool_iff in Hle. congruence.
  - destruct (Qle_bool a b) eqn:E; [|reflexivity].
    apply Qle_bool_iff in E. lra.
Qed.

Lemma Qgtb_false (a b : Q) : Qgtb a b = false <-> a <= b.
Proof.
  unfold Qgtb. rewrite negb_false_iff. apply Qle_bool_iff.
Qed.

Lemma Qmax0_nonneg (x : Q) : 0 <= Qmax 0 x.
Proof. apply Q.le_max_l. Qed.

(** [Math.max(0, x)] that is not positive is the literal 0. *)
Lemma Qmax0_zero (x : Q) : ~ 0 < Qmax 0 x -> Qmax 0 x = 0.
Proof.
  unfold Qmax, GenericMinMax.gmax. destruct (0 ?= x) eqn:E; try reflexivity.
  intro H. exfalso. apply H. rewrite Qlt_alt. exact E.
Qed.

(** ** The loop *)

Lemma loopCond_true (st : SimState) :
  loopCond st = true <-> 0 < bal st /\ (m st < 1200)%nat.
Proof.
  unfold loopCond. rewrite andb_true_iff, Qgtb_true, Nat.ltb_lt. tauto.
Qed.

Lemma loopCond_false (st : SimState) :
  loopCond st = false <-> bal st <= 0 \/ (1200 <= m st)%nat.
Proof.
  unfold loopCond. rewrite andb_false_iff, Qgtb_false, Nat.ltb_ge. tauto.
Qed.

Lemma while_rows (fuel : nat) : forall st,
  rowsSoFar (while fuel st) = rowsSoFar st ++ emitted fuel st.
Proof.
  induction fuel as [|fuel IH]; intro st; simpl.
  - now rewrite app_nil_r.
  - destruct (loopCond st).
    + rewrite IH. simpl. now rewrite <- app_assoc.
    + now rewrite app_nil_r.
Qed.

Lemma while_m (fuel : nat) : forall st,
  m (while fuel st) = (m st + length (emitted fuel st))%nat.
Proof.
  induction fuel as [|fuel IH]; intro st; simpl.
  - lia.
  - destruct (loopCond st); simpl; [rewrite IH; simpl|]; lia.
Qed.

(** One more unit of fuel is one more pass, if the test still holds. *)
Lemma while_S (k : nat) : forall st,
  while (S k) st =
  if loopCond (while k st) then monthStep (while k st) else while k st.
Proof.
  induction k as [|k IH]; intro st.
  - reflexivity.
  - change (while (S (S k)) st)
      with (if loopCond st then while (S k) (monthStep st) else st).
    destruct (loopCond st) eqn:E.
    + rewrite IH. simpl. now rewrite E.
    + simpl. rewrite E. now rewrite E.
Qed.

(** A state in which the test fails is where the loop stays. *)
Lemma while_stop (fuel : nat) (st : SimState) :
  loopCond st = false -> while fuel st = st.
Proof. destruct fuel; simpl; [reflexivity|]. now intros ->. Qed.

Lemma while_add (j : nat) : forall k st,
  while (j + k) st = while k (while j st).
Proof.
  induction j as [|j IH]; intros k st; simpl; [reflexivity|].
  destruct (loopCond st) eqn:E; [apply IH|].
  now rewrite while_stop.
Qed.

(** The loop has made all its passes once the fuel covers [1200 - m]. *)
Lemma while_done (fuel : nat) : forall st,
  (1200 - m st <= fuel)%nat -> loopCond (while fuel st) = false.
Proof.
  induction fuel as [|fuel IH]; intros st H; simpl.
  - apply loopCond_false. right. lia.
  - destruct (loopCond st) eqn:E; [|exact E].
    apply IH. change (m (monthStep st)) with (S (m st)). lia.
Qed.

Lemma while_fuel_irrelevant (fuel k : nat) (st : SimState) :
  (1200 - m st <= fuel)%nat -> while (fuel + k) st = while fuel st.
Proof.
  intro H. rewrite while_add. apply while_stop. now apply while_done.
Qed.

(** A property the body keeps holds in every state the loop reaches. *)
Lemma while_inv (Inv : SimState -> Prop) :
  (forall st, Inv st -> loopCond st = true -> Inv (monthStep st)) ->
  forall fuel st, Inv st -> Inv (while fuel st).
Proof.
  intros Hstep. induction fuel as [|fuel IH]; intros st H; simpl; [exact H|].
  destruct (loopCond st) eqn:E; [|exact H].
  apply IH. now apply Hstep.
Qed.

(** The row at position [i] is the row of the state after [i] passes, and
    the test held there. *)
Lemma emitted_nth (fuel : nat) : forall st i r,
  nth_error (emitted fuel st) i = Some r ->
  r = monthRow (while i st) /\ loopCond (while i st) = true
  /\ m (while i st) = (m st + i)%nat.
Proof.
  induction fuel as [|fuel IH]; intros st i r H; simpl in H.
  - destruct i; discriminate.
  - destruct (loopCond st) eqn:E; [|destruct i; discriminate].
    destruct i as [|i]; simpl in H.
    + injection H as <-. simpl. repeat split; [exact E|lia].
    + apply IH in H. simpl. rewrite E.
      destruct H as (H1 & H2 & H3). repeat split; try assumption.
      change (m (monthStep st)) with (S (m st)) in H3. lia.
Qed.

(** After as many passes as rows were pushed the loop is where it ends. *)
Lemma while_length (fuel : nat) : forall st,
  while (length (emitted fuel st)) st = while fuel st.
Proof.
  induction fuel as [|fuel IH]; intro st; simpl; [reflexivity|].
  destruct (loopCond st) eqn:E; simpl; [|reflexivity].
  rewrite E. apply IH.
Qed.

Lemma emitted_length (fuel : nat) : forall st,
  (m st <= 1200)%nat -> (length (emitted fuel st) <= 1200 - m st)%nat.
Proof.
  induction fuel as [|fuel IH]; intros st H; cbn [emitted length]; [lia|].
  destruct (loopCond st) eqn:E; cbn [length]; [|lia].
  apply loopCond_true in E. specialize (IH (monthStep st)).
  change (m (monthStep st)) with (S (m st)) in IH. lia.
Qed.

Lemma rows_emitted : rows simulateLoan = emitted 1200 initState.
Proof.
  unfold simulateLoan. cbv zeta. cbn [rows]. unfold finalState.
  rewrite while_rows. reflexivity.
Qed.

Lemma months_length : months simulateLoan = length (rows simulateLoan).
Proof.
  rewrite rows_emitted. unfold simulateLoan. cbv zeta. cbn [months].
  unfold finalState. rewrite while_m. reflexivity.
Qed.

(** The rows of the result, one by one. *)
Lemma rows_nth (i : nat) (r : MonthRow) :
  nth_error (rows simulateLoan) i = Some r ->
  r = monthRow (while i initState) /\ loopCond (while i initState) = true
  /\ m (while i initState) = i.
Proof. rewrite rows_emitted. intro H. now apply emitted_nth in H. Qed.

Lemma rows_first :
  0 < principal input ->
  nth_error (rows simulateLoan) 0 = Some (monthRow initState).
Proof.
  intro H. rewrite rows_emitted.
  assert (E : loopCond initState = true).
  { apply loopCond_true. split; [exact H|]. cbn [m initState]. lia. }
  change 1200%nat with (S 1199). cbn [emitted]. now rewrite E.
Qed.

(** The last row carries the balance the loop ends with. *)
Lemma rows_last (n : nat) :
  length (rows simulateLoan) = S n ->
  nth_error (rows simulateLoan) n
  = Some (monthRow (while n initState))
  /\ closingPrincipal (monthRow (while n initState)) = bal finalState.
Proof.
  intro L.
  destruct (nth_error (rows simulateLoan) n) as [r|] eqn:E.
  - destruct (rows_nth _ _ E) as (-> & C & _). split; [reflexivity|].
    unfold finalState. rewrite <- (while_length 1200 initState).
    rewrite <- rows_emitted, L, while_S, C. reflexivity.
  - apply nth_error_None in E. lia.
Qed.

(** ** State continuity *)

Lemma closing_is_next_opening_aux (i : nat) (r1 r2 : MonthRow) :
  nth_error (rows simulateLoan) i = Some r1 ->
  nth_error (rows simulateLoan) (S i) = Some r2 ->
  closingPrincipal r1 = openingPrincipal r2.
Proof.
  intros H1 H2.
  apply rows_nth in H1 as (-> & C1 & _).
  apply rows_nth in H2 as (-> & _ & _).
  rewrite while_S, C1. reflexivity.
Qed.

(** C9.  In the rows of a simulation, the closing principal of a row is the
    opening principal of the row that follows it. *)
Theorem closing_is_next_opening (i : nat) (r1 r2 : MonthRow) :
  nth_error (rows simulateLoan) i = Some r1 ->
  nth_error (rows simulateLoan) (S i) = Some r2 ->
  closingPrincipal r1 = openingPrincipal r2.
Proof. apply closing_is_next_opening_aux. Qed.

(** ** The two savings fields *)

Lemma savingsBalance_monthRow (st : SimState) :
  savingsBalance (monthRow st) == savingsAfterIncrement st - transferAmount st.
Proof.
  unfold monthRow, transferAmount, savingsAfterIncrement. cbn [savingsBalance].
  match goal with |- (if ?b then _ else _) == _ => destruct b end; lra.
Qed.

(** C10.  In every row [savingsBalance] and [closingSavings] are the same
    value: the savings after the month's increment and after the month's
    transfer, which is also the balance carried into the next month.  The
    effective principal (and so the interest) was taken from the balance
    before the transfer, which no field of the row holds. *)
Theorem savings_fields_agree (i : nat) (r : MonthRow) :
  nth_error (rows simulateLoan) i = Some r ->
  savingsBalance r = closingSavings r
  /\ closingSavings r = savings (while (S i) initState)
  /\ savingsBalance r
     == savingsAfterIncrement (while i initState)
        - transferAmount (while i initState)
  /\ effectivePrincipal r
     = Qmax 0 (openingPrincipal r
               - (if enabled (od input)
                  then savingsAfterIncrement (while i initState) else 0)).
Proof.
  intro H. apply rows_nth in H as (-> & C & _).
  split; [reflexivity|]. split; [|split].
  - rewrite while_S, C. reflexivity.
  - apply savingsBalance_monthRow.
  - reflexivity.
Qed.

(** ** Termination and the 1200-month bound *)

(** A last row that leaves a positive balance is row 1200. *)
Lemma last_row_positive (i : nat) (r : MonthRow) :
  nth_error (rows simulateLoan) i = Some r ->
  S i = length (rows simulateLoan) ->
  0 < closingPrincipal r -> S i = 1200%nat.
Proof.
  intros H L P.
  destruct (rows_last i (eq_sym L)) as (E & B).
  rewrite H in E. injection E as ->. rewrite B in P.
  assert (D : loopCond finalState = false).
  { apply while_done. cbn [m initState]. lia. }
  apply loopCond_false in D. destruct D as [D|D]; [lra|].
  assert (M : m finalState = length (rows simulateLoan)).
  { rewrite <- months_length. reflexivity. }
  pose proof (emitted_length 1200 initState) as L'.
  rewrite <- rows_emitted in L'. cbn [m initState] in L'. lia.
Qed.

(** C4.  The loop ends: 1200 passes are all it can make, more fuel changes
    nothing and the loop test is false in the state it leaves.  At most
    1200 rows are pushed; a row whose closing principal is 0 is the last
    one, and a last row with a positive closing principal is row 1200. *)
Theorem simulation_ends_at_zero_or_cap :
  (forall k, while (1200 + k) initState = finalState)
  /\ loopCond finalState = false
  /\ (length (rows simulateLoan) <= 1200)%nat
  /\ months simulateLoan = length (rows simulateLoan)
  /\ (forall i r, nth_error (rows simulateLoan) i = Some r ->
        closingPrincipal r == 0 -> S i = length (rows simulateLoan))
  /\ (forall i r, nth_error (rows simulateLoan) i = Some r ->
        S i = length (rows simulateLoan) ->
        0 < closingPrincipal r -> S i = 1200%nat).
Proof.
  split; [|split; [|split; [|split; [|split]]]].
  - intro k. apply while_fuel_irrelevant. cbn [m initState]. lia.
  - apply while_done. cbn [m initState]. lia.
  - rewrite rows_emitted.
    pose proof (emitted_length 1200 initState) as L.
    cbn [m initState] in L. lia.
  - apply months_length.
  - intros i r H Z.
    assert (Hlt : (i < length (rows simulateLoan))%nat).
    { apply nth_error_Some. congruence. }
    destruct (nth_error (rows simulateLoan) (S i)) as [r'|] eqn:E.
    + pose proof (closing_is_next_opening_aux i r r' H E) as Hc.
      apply rows_nth in E as (-> & C & _).
      apply loopCond_true in C. change (openingPrincipal (monthRow (while (S i) initState)))
        with (bal (while (S i) initState)) in Hc. rewrite <- Hc in C. lra.
    + apply nth_error_None in E. lia.
  - apply last_row_positive.
Qed.

(** ** Degenerate configurations *)

Lemma emi_degenerate (P r N : Q) : P <= 0 \/ N <= 0 -> emi P r N = 0.
Proof.
  intro H. unfold emi.
  assert (E : Qle_bool P 0 || Qle_bool N 0 = true).
  { apply orb_true_iff. rewrite !Qle_bool_iff. exact H. }
  now rewrite E.
Qed.

(** C2 (as the code has it).  The annuity calculator returns 0 when the
    principal or the tenure is not positive.  With a principal that is not
    positive the loop test fails at once: no rows, zero aggregates, zero
    months.  (A tenure that is not positive does not stop the loop when the
    principal is positive.) *)
Theorem nonpositive_principal_empty_result :
  (principal input <= 0 \/ totalTenureMonths <= 0 -> baseEmi = 0)
  /\ (principal input <= 0 ->
      rows simulateLoan = []
      /\ totalInterest simulateLoan = 0
      /\ totalPaid simulateLoan = 0
      /\ months simulateLoan = 0%nat
      /\ payoffDateNote simulateLoan = "0y 0m"%string).
Proof.
  split.
  - apply emi_degenerate.
  - intro H.
    assert (E : finalState = initState).
    { apply while_stop. apply loopCond_false. now left. }
    unfold simulateLoan. rewrite E. cbv zeta. cbn [m rowsSoFar interestSoFar initState].
    repeat split; reflexivity.
Qed.

(** ** Zero rate *)

Lemma zero_rate_monthly : annualRate input == 0 -> rMonthlyBase == 0.
Proof. intro H. unfold rMonthlyBase. rewrite H. reflexivity. Qed.

(** C7.  At an annual rate of 0, with a positive principal and a positive
    tenure, the annuity payment is [principal / tenure] and the interest
    total of the simulation is 0. *)
Theorem zero_rate_payment_and_interest :
  annualRate input == 0 ->
  0 < principal input ->
  0 < totalTenureMonths ->
  baseEmi = principal input / totalTenureMonths
  /\ totalInterest simulateLoan == 0.
Proof.
  intros Hr HP HN. pose proof (zero_rate_monthly Hr) as R. split.
  - unfold baseEmi, emi.
    assert (E1 : Qle_bool (principal input) 0 = false).
    { apply Qgtb_true in HP. unfold Qgtb in HP. now apply negb_true_iff. }
    assert (E2 : Qle_bool totalTenureMonths 0 = false).
    { apply Qgtb_true in HN. unfold Qgtb in HN. now apply negb_true_iff. }
    apply Qeq_bool_iff in R. now rewrite E1, E2, R.
  - unfold simulateLoan. cbv zeta. cbn [totalInterest]. unfold finalState.
    apply (while_inv (fun st => interestSoFar st == 0)).
    + intros st I _. cbn [interestSoFar monthStep].
      change (interest (monthRow st))
        with (effectivePrincipal (monthRow st) * rMonthlyBase).
      rewrite I, R. ring.
    + reflexivity.
Qed.

(** ** The savings offset *)

Lemma savingsAfterIncrement_nonneg (st : SimState) :
  0 <= savings st -> 0 <= savingsAfterIncrement st.
Proof.
  intro H. unfold savingsAfterIncrement.
  destruct (_ && _); [apply Qmax0_nonneg|exact H].
Qed.

Lemma transferAmount_bounds (st : SimState) :
  0 <= savings st ->
  0 <= transferAmount st <= savingsAfterIncrement st.
Proof.
  intro H. apply savingsAfterIncrement_nonneg in H. unfold transferAmount.
  cbv zeta. destruct (_ && _) eqn:E.
  - apply andb_true_iff in E as [_ E]. apply Qgtb_true in E.
    split; [lra|apply Q.le_min_r].
  - lra.
Qed.

(** The savings balance never goes below 0 when it starts at 0 or above. *)
Lemma savings_nonneg (k : nat) :
  (enabled (od input) = true -> 0 <= startSavings (od input)) ->
  0 <= savings (while k initState).
Proof.
  intro H0. apply (while_inv (fun st => 0 <= savings st)).
  - intros st I _.
    change (savings (monthStep st)) with (savingsBalance (monthRow st)).
    rewrite savingsBalance_monthRow.
    pose proof (transferAmount_bounds st I). lra.
  - cbn [savings initState]. destruct (enabled (od input)); [now apply H0|lra].
Qed.

(** C8.  With the savings offset enabled (and an opening savings balance
    that is not negative, as the data model has it), every row has
    [effectivePrincipal <= openingPrincipal], and its interest is the
    effective principal times the monthly rate. *)
Theorem offset_bound (r : MonthRow) :
  enabled (od input) = true ->
  0 <= startSavings (od input) ->
  In r (rows simulateLoan) ->
  effectivePrincipal r <= openingPrincipal r
  /\ interest r = effectivePrincipal r * rateMonthly r
  /\ rateMonthly r = annualRate input / 1200.
Proof.
  intros En H0 Hin. apply In_nth_error in Hin as [i Hi].
  apply rows_nth in Hi as (-> & C & _).
  split; [|split; reflexivity].
  apply loopCond_true in C as [B _].
  pose proof (savings_nonneg i (fun _ => H0)) as S.
  apply savingsAfterIncrement_nonneg in S.
  change (effectivePrincipal (monthRow (while i initState)))
    with (Qmax 0 (bal (while i initState)
                  - (if enabled (od input)
                     then savingsAfterIncrement (while i initState) else 0))).
  change (openingPrincipal (monthRow (while i initState)))
    with (bal (while i initState)).
  rewrite En. apply Q.max_lub; lra.
Qed.

(** ** The step-up policy *)

Lemma ofNat_S (k : nat) : ofNat (S k) == ofNat k + 1.
Proof.
  unfold ofNat. rewrite Nat2Z.inj_succ, <- Z.add_1_r, inject_Z_plus.
  reflexivity.
Qed.

Lemma ofNat_inj (j k : nat) : ofNat j == ofNat k -> j = k.
Proof.
  unfold ofNat. intro H. apply Nat2Z.inj. now apply inject_Z_injective.
Qed.

(** If the test holds after [S k] units of fuel, it held after [k], and the
    last unit made a pass. *)
Lemma loopCond_pred (k : nat) (st : SimState) :
  loopCond (while (S k) st) = true ->
  loopCond (while k st) = true
  /\ while (S k) st = monthStep (while k st).
Proof.
  rewrite while_S. destruct (loopCond (while k st)) eqn:E; [tauto|].
  intro H. congruence.
Qed.

Lemma applyStepUp_monthly_add (month : nat) (cur : Q) :
  mode (stepUp input) = monthly_add ->
  0 < value (stepUp input) ->
  applyStepUp month cur = (cur + value (stepUp input), cur).
Proof.
  intros Hm Hv. unfold applyStepUp. rewrite Hm. apply Qgtb_true in Hv.
  cbn [mode_eqb andb]. now rewrite Hv.
Qed.

(** C1 (as the code has it).  In the monthly mode with a positive amount
    [v], [applyStepUp] returns [cur + v] and leaves [schedEmi] alone, but
    the loop assigns the returned value to [schedEmi]: the variable grows
    by [v] in every pass, and the payment resolved in month [k] is the
    initial annuity payment plus [(k + 1) * v]. *)
Theorem monthly_add_accumulates :
  mode (stepUp input) = monthly_add ->
  0 < value (stepUp input) ->
  (forall month cur,
      applyStepUp month cur = (cur + value (stepUp input), cur))
  /\ (forall st, schedEmi (monthStep st) = schedEmi st + value (stepUp input))
  /\ (forall k, loopCond (while k initState) = true ->
        m (while k initState) = k
        /\ schedEmi (while k initState)
           == baseEmi + ofNat k * value (stepUp input)
        /\ fst (applyStepUp k (schedEmi (while k initState)))
           == baseEmi + (ofNat k + 1) * value (stepUp input)).
Proof.
  intros Hm Hv.
  assert (A : forall month cur,
             applyStepUp month cur = (cur + value (stepUp input), cur))
    by (intros; now apply applyStepUp_monthly_add).
  assert (B : forall st,
             schedEmi (monthStep st) = schedEmi st + value (stepUp input)).
  { intro st. cbn [schedEmi monthStep]. now rewrite A. }
  split; [exact A|]. split; [exact B|].
  assert (K : forall k, loopCond (while k initState) = true ->
              m (while k initState) = k
              /\ schedEmi (while k initState)
                 == baseEmi + ofNat k * value (stepUp input)).
  { induction k as [|k IH]; intro C.
    - split; [reflexivity|]. cbn [while schedEmi initState].
      unfold ofNat. cbn [Z.of_nat]. ring.
    - apply loopCond_pred in C as [C E]. destruct (IH C) as [M S].
      rewrite E, B, S, ofNat_S. split; [|ring].
      change (m (monthStep (while k initState)))
        with (Datatypes.S (m (while k initState))).
      now rewrite M. }
  intros k C. destruct (K k C) as [M S].
  split; [exact M|]. split; [exact S|].
  rewrite A. cbn [fst]. rewrite S. ring.
Qed.

(** ** The prepayment policy *)

Lemma computePrepay_split (k : nat) :
  computePrepay k
  == (if Qgtb (oneTimeAmount (prepay input)) 0
         && Qeq_bool (ofNat k) (oneTimeMonth (prepay input))
      then oneTimeAmount (prepay input) else 0)
     + recurringPrepay k.
Proof.
  unfold computePrepay, recurringPrepay. cbv zeta.
  destruct (Qgtb (oneTimeAmount (prepay input)) 0
            && Qeq_bool (ofNat k) (oneTimeMonth (prepay input)));
    destruct (Qgtb (recurringAnnualAmount (prepay input)) 0
              && (0 <? k)%nat && (k mod 12 =? 0)%nat); ring.
Qed.

Lemma prepayment_monthRow (st : SimState) :
  prepayment (monthRow st)
  == Qmin (computePrepay (m st) + transferAmount st)
          (Qmax 0 (bal st - principalPaid (monthRow st))).
Proof.
  unfold monthRow, transferAmount, savingsAfterIncrement.
  cbn [prepayment principalPaid]. cbv zeta.
  match goal with |- Qmin (if ?b then _ else _) _ == _ => destruct b end.
  - reflexivity.
  - apply Q.min_compat; [ring|reflexivity].
Qed.

(** C3 (as the code has it).  With a positive one-time amount,
    [computePrepay] adds it in the month equal to [oneTimeMonth] (on top of
    the recurring amount when that month is a recurring one) and in no
    other month.  Row [i] is month [i], so at most one row is that month
    (none when the loan ends before it, or when it is not one of the months
    0 .. 1199).  The [prepayment] field of a row is the month's total (the
    prepayment policy plus the savings transfer) cut down to the balance
    left after the scheduled principal. *)
Theorem one_time_prepayment_locality :
  0 < oneTimeAmount (prepay input) ->
  (forall k, ofNat k == oneTimeMonth (prepay input) ->
     computePrepay k == oneTimeAmount (prepay input) + recurringPrepay k)
  /\ (forall k, ~ ofNat k == oneTimeMonth (prepay input) ->
       computePrepay k == recurringPrepay k)
  /\ (forall i r, nth_error (rows simulateLoan) i = Some r ->
       monthIndex r = i
       /\ prepayment r
          == Qmin (computePrepay i + transferAmount (while i initState))
                  (Qmax 0 (openingPrincipal r - principalPaid r)))
  /\ (forall i j ri rj,
       nth_error (rows simulateLoan) i = Some ri ->
       nth_error (rows simulateLoan) j = Some rj ->
       ofNat (monthIndex ri) == oneTimeMonth (prepay input) ->
       ofNat (monthIndex rj) == oneTimeMonth (prepay input) ->
       i = j).
Proof.
  intro Ha. apply Qgtb_true in Ha.
  assert (R : forall i r, nth_error (rows simulateLoan) i = Some r ->
              monthIndex r = i
              /\ prepayment r
                 == Qmin (computePrepay i + transferAmount (while i initState))
                         (Qmax 0 (openingPrincipal r - principalPaid r))).
  { intros i r H. apply rows_nth in H as (-> & _ & M). split; [exact M|].
    rewrite prepayment_monthRow, M. reflexivity. }
  split; [|split; [|split; [exact R|]]].
  - intros k E. rewrite computePrepay_split, Ha.
    apply Qeq_bool_iff in E. rewrite E. reflexivity.
  - intros k E. rewrite computePrepay_split.
    destruct (Qeq_bool (ofNat k) (oneTimeMonth (prepay input))) eqn:B.
    + apply Qeq_bool_iff in B. contradiction.
    + rewrite andb_false_r. ring.
  - intros i j ri rj Hi Hj Ei Ej.
    destruct (R i ri Hi) as [Mi _]. destruct (R j rj Hj) as [Mj _].
    rewrite Mi in Ei. rewrite Mj in Ej. apply ofNat_inj. now rewrite Ei, Ej.
Qed.

(** ** Schedules that run into the 1200-month bound *)

(** When a property the body keeps forces a positive balance, the loop
    makes all 1200 passes. *)
Lemma cap_reached (Inv : SimState -> Prop) :
  Inv initState ->
  (forall st, Inv st -> 0 < bal st) ->
  (forall st, Inv st -> loopCond st = true -> Inv (monthStep st)) ->
  length (rows simulateLoan) = 1200%nat
  /\ exists r, nth_error (rows simulateLoan) 1199 = Some r
              /\ closingPrincipal r = bal finalState
              /\ 0 < closingPrincipal r.
Proof.
  intros I0 Ipos Istep.
  assert (A : forall k, Inv (while k initState))
    by (intro k; now apply while_inv).
  assert (M : forall k, (k <= 1200)%nat -> m (while k initState) = k).
  { induction k as [|k IH]; intro Hk; [reflexivity|].
    rewrite while_S.
    assert (C : loopCond (while k initState) = true).
    { apply loopCond_true. split; [apply Ipos, A|]. rewrite IH; lia. }
    rewrite C.
    change (m (monthStep (while k initState)))
      with (S (m (while k initState))).
    rewrite IH; lia. }
  assert (L : length (rows simulateLoan) = 1200%nat).
  { rewrite <- months_length. apply (M 1200%nat). lia. }
  split; [exact L|].
  destruct (rows_last 1199 L) as (E & B).
  eexists. split; [exact E|]. split; [exact B|].
  rewrite B. apply Ipos, A.
Qed.

(** Every [Math.max] and [Math.min] of the goal becomes a variable that
    carries its defining cases; what is left is linear arithmetic. *)
Ltac name_minmax :=
  repeat match goal with
  | |- context [Qmax ?a ?b] =>
      let x := fresh "mx" in
      pose proof (Q.max_spec a b); set (x := Qmax a b) in *; clearbody x
  | |- context [Qmin ?a ?b] =>
      let x := fresh "mn" in
      pose proof (Q.min_spec a b); set (x := Qmin a b) in *; clearbody x
  | H : context [Qmax ?a ?b] |- _ =>
      let x := fresh "mx" in
      pose proof (Q.max_spec a b); set (x := Qmax a b) in *; clearbody x
  | H : context [Qmin ?a ?b] |- _ =>
      let x := fresh "mn" in
      pose proof (Q.min_spec a b); set (x := Qmin a b) in *; clearbody x
  end.

Ltac split_cases :=
  repeat match goal with
  | H : _ \/ _ |- _ => destruct H
  | H : _ /\ _ |- _ => destruct H
  end.

Ltac minmax_lra := name_minmax; split_cases; lra.

Lemma applyStepUp_noStepUp (month : nat) (cur : Q) :
  noStepUp -> applyStepUp month cur = (cur, cur).
Proof.
  unfold noStepUp, applyStepUp. intros [H|H].
  - rewrite H. reflexivity.
  - apply Qgtb_false in H. rewrite H, !andb_false_r. reflexivity.
Qed.

Lemma computePrepay_noPrepay (month : nat) :
  noPrepay -> computePrepay month = 0.
Proof.
  unfold noPrepay, computePrepay. intros [H1 H2].
  apply Qgtb_false in H1, H2. rewrite H1, H2. reflexivity.
Qed.

(** A month of a plain schedule (no step-up, no prepayment, no offset),
    written with the month's interest [i] as the only unknown. *)
Lemma plain_month (st : SimState) :
  noStepUp -> noPrepay -> noOffset ->
  let i := Qmax 0 (bal st - 0) * rMonthlyBase in
  let paid := Qmax 0 (Qmin (schedEmi st) (bal st + i) - i) in
  interest (monthRow st) = i
  /\ closingPrincipal (monthRow st)
     = Qmax 0 (bal st - paid - Qmin 0 (Qmax 0 (bal st - paid)))
  /\ schedEmi (monthStep st) = schedEmi st.
Proof.
  intros S P O. unfold noOffset in O. cbv zeta.
  unfold monthStep, monthRow. cbv zeta.
  cbn [interest closingPrincipal schedEmi].
  rewrite (applyStepUp_noStepUp _ _ S), (computePrepay_noPrepay _ P), O.
  cbn [andb fst]. repeat split; reflexivity.
Qed.

Lemma firstInterest_plain :
  noOffset -> firstInterest = Qmax 0 (principal input - 0) * rMonthlyBase.
Proof.
  unfold noOffset, firstInterest, monthRow. intro O. cbv zeta.
  cbn [interest bal initState]. rewrite O. reflexivity.
Qed.

Lemma rMonthlyBase_nonneg : 0 <= annualRate input -> 0 <= rMonthlyBase.
Proof.
  intro H. unfold rMonthlyBase, Qdiv. apply Qmult_le_0_compat; [exact H|].
  apply Qinv_le_0_compat. lra.
Qed.

(** A plain schedule whose payment is too small to retire the principal in
    1200 months is cut at the bound with a positive balance. *)
Lemma plain_slow_schedule_hits_cap :
  noStepUp -> noPrepay -> noOffset ->
  0 <= rMonthlyBase -> 0 <= baseEmi ->
  1200 * baseEmi < principal input ->
  length (rows simulateLoan) = 1200%nat
  /\ exists r, nth_error (rows simulateLoan) 1199 = Some r
              /\ closingPrincipal r = bal finalState
              /\ 0 < closingPrincipal r.
Proof.
  intros S P O R E Slow.
  apply (cap_reached
           (fun st => schedEmi st = baseEmi
                      /\ (m st <= 1200)%nat
                      /\ principal input - ofNat (m st) * baseEmi <= bal st)).
  - cbn [schedEmi m bal initState]. split; [reflexivity|]. split; [lia|].
    change (ofNat 0) with 0. lra.
  - intros st (_ & M & B).
    assert (ofNat (m st) * baseEmi <= 1200 * baseEmi).
    { apply Qmult_le_compat_r; [|exact E]. unfold ofNat.
      change 1200 with (inject_Z 1200). rewrite <- Zle_Qle. lia. }
    lra.
  - intros st (Es & _ & B) C. apply loopCond_true in C as [Bp M].
    destruct (plain_month st S P O) as (_ & Hc & Hs).
    split; [now rewrite Hs|]. split; [cbn [m monthStep]; lia|].
    change (bal (monthStep st)) with (closingPrincipal (monthRow st)).
    change (m (monthStep st)) with (Datatypes.S (m st)).
    rewrite Hc, ofNat_S, Es.
    assert (I : 0 <= Qmax 0 (bal st - 0) * rMonthlyBase)
      by (apply Qmult_le_0_compat; [apply Qmax0_nonneg|exact R]).
    set (i := Qmax 0 (bal st - 0) * rMonthlyBase) in *. clearbody i.
    set (e := baseEmi) in *. clearbody e.
    set (t := ofNat (m st) * e) in *.
    assert (T : (ofNat (m st) + 1) * e == t + e) by (unfold t; ring).
    rewrite T. clearbody t. minmax_lra.
Qed.

(** C5 (as the code has it).  A plain schedule (no step-up, no prepayment,
    no offset) on a positive principal whose payment does not exceed the
    first month's interest never reduces the balance: the loop ends at the
    bound, with 1200 rows and a positive closing principal in the last. *)
Theorem payment_within_interest_hits_cap :
  noStepUp -> noPrepay -> noOffset ->
  0 < principal input ->
  baseEmi <= firstInterest ->
  (forall k, while (1200 + k) initState = finalState)
  /\ length (rows simulateLoan) = 1200%nat
  /\ months simulateLoan = 1200%nat
  /\ exists r, nth_error (rows simulateLoan) 1199 = Some r
              /\ 0 < closingPrincipal r.
Proof.
  intros S P O Pos Small. rewrite (firstInterest_plain O) in Small.
  split.
  { intro k. apply while_fuel_irrelevant. cbn [m initState]. lia. }
  rewrite months_length.
  assert (length (rows simulateLoan) = 1200%nat
          /\ exists r, nth_error (rows simulateLoan) 1199 = Some r
                       /\ closingPrincipal r = bal finalState
                       /\ 0 < closingPrincipal r) as (L & r & Hr & _ & Hp).
  { apply (cap_reached
             (fun st => schedEmi st = baseEmi /\ bal st == principal input)).
    - cbn [schedEmi bal initState]. split; reflexivity.
    - intros st (_ & B). lra.
    - intros st (Es & B) _.
      destruct (plain_month st S P O) as (_ & Hc & Hs).
      split; [now rewrite Hs|].
      change (bal (monthStep st)) with (closingPrincipal (monthRow st)).
      rewrite Hc, Es.
      assert (I : Qmax 0 (bal st - 0) * rMonthlyBase
                  == Qmax 0 (principal input - 0) * rMonthlyBase).
      { apply Qmult_comp; [|reflexivity].
        apply Q.max_compat; [reflexivity|]. rewrite B. reflexivity. }
      set (i := Qmax 0 (bal st - 0) * rMonthlyBase) in *. clearbody i.
      set (i0 := Qmax 0 (principal input - 0) * rMonthlyBase) in *.
      clearbody i0. set (e := baseEmi) in *. clearbody e.
      minmax_lra. }
  split; [exact L|]. split; [exact L|]. exists r. now split.
Qed.

(** C6 (as the code has it).  In a plain schedule at a rate that is not
    negative, with a payment above the first month's interest, every row
    closes at or above 0 and strictly below where it opened, so the closing
    principal falls strictly from row to row; the last row closes at
    exactly 0 unless the loop was cut at the bound, in which case there are
    1200 rows. *)
Theorem plain_schedule_converges :
  noStepUp -> noPrepay -> noOffset ->
  0 <= annualRate input ->
  firstInterest < baseEmi ->
  (forall i r, nth_error (rows simulateLoan) i = Some r ->
     0 <= closingPrincipal r /\ closingPrincipal r < openingPrincipal r)
  /\ (forall i r1 r2,
       nth_error (rows simulateLoan) i = Some r1 ->
       nth_error (rows simulateLoan) (S i) = Some r2 ->
       closingPrincipal r2 < closingPrincipal r1)
  /\ (forall i r, nth_error (rows simulateLoan) i = Some r ->
       S i = length (rows simulateLoan) ->
       closingPrincipal r = 0 \/ length (rows simulateLoan) = 1200%nat).
Proof.
  intros S P O Rate Big. rewrite (firstInterest_plain O) in Big.
  pose proof (rMonthlyBase_nonneg Rate) as R.
  assert (Step : forall st,
             schedEmi st = baseEmi -> bal st <= principal input ->
             0 < bal st ->
             0 <= closingPrincipal (monthRow st)
             /\ closingPrincipal (monthRow st) < bal st).
  { intros st Es B Bp. destruct (plain_month st S P O) as (_ & Hc & _).
    rewrite Hc, Es.
    assert (I0 : 0 <= Qmax 0 (bal st - 0) * rMonthlyBase)
      by (apply Qmult_le_0_compat; [apply Qmax0_nonneg|exact R]).
    assert (I1 : Qmax 0 (bal st - 0) * rMonthlyBase
                 <= Qmax 0 (principal input - 0) * rMonthlyBase).
    { apply Qmult_le_compat_r; [|exact R]. clear Big I0. minmax_lra. }
    set (i := Qmax 0 (bal st - 0) * rMonthlyBase) in *. clearbody i.
    set (i0 := Qmax 0 (principal input - 0) * rMonthlyBase) in *.
    clearbody i0. set (e := baseEmi) in *. clearbody e.
    split; minmax_lra. }
  assert (Inv : forall k, schedEmi (while k initState) = baseEmi
                          /\ bal (while k initState) <= principal input).
  { intro k.
    apply (while_inv (fun st => schedEmi st = baseEmi
                                /\ bal st <= principal input)).
    - intros st (Es & B) C. apply loopCond_true in C as [Bp _].
      destruct (plain_month st S P O) as (_ & _ & Hs).
      split; [now rewrite Hs|].
      change (bal (monthStep st)) with (closingPrincipal (monthRow st)).
      destruct (Step st Es B Bp). lra.
    - cbn [schedEmi bal initState]. split; [reflexivity|lra]. }
  assert (Row : forall i r, nth_error (rows simulateLoan) i = Some r ->
                  0 <= closingPrincipal r
                  /\ closingPrincipal r < openingPrincipal r).
  { intros i r H. apply rows_nth in H as (-> & C & _).
    apply loopCond_true in C as [Bp _]. destruct (Inv i) as [Es B].
    now apply Step. }
  split; [exact Row|]. split.
  - intros i r1 r2 H1 H2.
    rewrite (closing_is_next_opening_aux i r1 r2 H1 H2).
    apply (Row _ _ H2).
  - intros i r H L.
    destruct (Qlt_le_dec 0 (closingPrincipal r)) as [Hp|Hz].
    + right. rewrite <- L. now apply (last_row_positive i r).
    + left. apply rows_nth in H as (-> & _ & _).
      apply Qmax0_zero. apply Qle_not_lt. exact Hz.
Qed.

(** * Further properties of the simulator *)

(** ** A month's accounts *)

Lemma computePrepay_nonneg (k : nat) : 0 <= computePrepay k.
Proof.
  unfold computePrepay. cbv zeta.
  destruct (Qgtb (oneTimeAmount (prepay input)) 0) eqn:A;
    destruct (Qgtb (recurringAnnualAmount (prepay input)) 0) eqn:B;
    try apply Qgtb_true in A; try apply Qgtb_true in B;
    cbn [andb];
    repeat match goal with |- context [if ?b then _ else _] => destruct b end;
    lra.
Qed.

Lemma transferAmount_nonneg (st : SimState) : 0 <= transferAmount st.
Proof.
  unfold transferAmount. cbv zeta. destruct (_ && _) eqn:E; [|lra].
  apply andb_true_iff in E as [_ E]. apply Qgtb_true in E. lra.
Qed.

(** The accounts of one pass, for a state the loop test lets through. *)
Lemma month_accounts (st : SimState) :
  0 < bal st ->
  let r := monthRow st in
  (0 <= principalPaid r /\ principalPaid r <= bal st)
  /\ (0 <= prepayment r /\ prepayment r <= bal st - principalPaid r)
  /\ closingPrincipal r == bal st - principalPaid r - prepayment r
  /\ scheduledEmi r <= bal st + interest r
  /\ scheduledEmi r <= interest r + principalPaid r
  /\ (interest r <= scheduledEmi r ->
      scheduledEmi r == interest r + principalPaid r)
  /\ (0 < closingPrincipal r ->
      scheduledEmi r == fst (applyStepUp (m st) (schedEmi st))).
Proof.
  intros B r.
  pose proof (prepayment_monthRow st) as Hp.
  pose proof (computePrepay_nonneg (m st)) as Hc.
  pose proof (transferAmount_nonneg st) as Ht.
  change (closingPrincipal r)
    with (Qmax 0 (bal st - principalPaid r - prepayment r)).
  fold r in Hp. set (p := prepayment r) in *. clearbody p.
  change (principalPaid r) with (Qmax 0 (scheduledEmi r - interest r)) in *.
  change (scheduledEmi r)
    with (Qmin (fst (applyStepUp (m st) (schedEmi st)))
               (bal st + interest r)) in *.
  set (i := interest r) in *. clearbody i. clear r.
  set (e := fst (applyStepUp (m st) (schedEmi st))) in *. clearbody e.
  set (x := computePrepay (m st) + transferAmount st) in *.
  assert (X : 0 <= x) by (unfold x; lra). clearbody x. clear Hc Ht.
  set (b := bal st) in *. clearbody b.
  repeat match goal with |- _ /\ _ => split end.
  1-7: minmax_lra.
  all: intro; minmax_lra.
Qed.

(** ** The rows of a result *)

(** X5.  Row [i] is month [i], in year [i / 12 + 1], at the one monthly rate;
    the years run from 1 to 100. *)
Theorem rows_in_month_order (i : nat) (r : MonthRow) :
  nth_error (rows simulateLoan) i = Some r ->
  monthIndex r = i
  /\ year r = (i / 12 + 1)%nat
  /\ (1 <= year r <= 100)%nat
  /\ rateMonthly r = annualRate input / 1200.
Proof.
  intro H.
  assert (L : (i < 1200)%nat).
  { assert (i < length (rows simulateLoan))%nat
      by (apply nth_error_Some; congruence).
    rewrite rows_emitted in *.
    pose proof (emitted_length 1200 initState) as L'.
    cbn [m initState] in L'. lia. }
  apply rows_nth in H as (-> & _ & M).
  cbn [monthIndex year rateMonthly monthRow]. rewrite M.
  split; [reflexivity|]. split; [reflexivity|]. split; [|reflexivity].
  assert (i / 12 < 100)%nat by (apply Nat.Div0.div_lt_upper_bound; lia).
  lia.
Qed.

(** X1.  In every row the principal paid and the prepayment are not negative and
    together do not exceed the opening principal; the closing principal is
    the opening principal less the two, so it is never negative and never
    above the opening principal (unpaid interest is not added to the
    balance). *)
Theorem balance_accounts (r : MonthRow) :
  In r (rows simulateLoan) ->
  0 <= principalPaid r
  /\ 0 <= prepayment r
  /\ closingPrincipal r
     == openingPrincipal r - principalPaid r - prepayment r
  /\ 0 <= closingPrincipal r
  /\ closingPrincipal r <= openingPrincipal r.
Proof.
  intro H. apply In_nth_error in H as [i H].
  apply rows_nth in H as (-> & C & _). apply loopCond_true in C as [B _].
  destruct (month_accounts _ B) as ((P0 & P1) & (Q0 & Q1) & E & _).
  change (openingPrincipal (monthRow (while i initState)))
    with (bal (while i initState)).
  repeat split; try assumption; rewrite E; lra.
Qed.

(** X2.  The scheduled payment of a row never exceeds what is due in full (the
    opening principal and the month's interest), and it splits into interest
    and principal: it is at most their sum, and exactly their sum when it
    covers the interest. *)
Theorem payment_split (r : MonthRow) :
  In r (rows simulateLoan) ->
  scheduledEmi r <= openingPrincipal r + interest r
  /\ scheduledEmi r <= interest r + principalPaid r
  /\ (interest r <= scheduledEmi r ->
      scheduledEmi r == interest r + principalPaid r).
Proof.
  intro H. apply In_nth_error in H as [i H].
  apply rows_nth in H as (-> & C & _). apply loopCond_true in C as [B _].
  destruct (month_accounts _ B) as (_ & _ & _ & D & S1 & S2 & _).
  repeat split; assumption.
Qed.

(** ** The aggregates *)

Lemma sumRows_app (f : MonthRow -> Q) (rs : list MonthRow) (r : MonthRow) :
  sumRows f (rs ++ [r]) = sumRows f rs + f r.
Proof. unfold sumRows. rewrite fold_left_app. reflexivity. Qed.

Lemma totalPaid_sumRows :
  totalPaid simulateLoan
  == sumRows (fun r => scheduledEmi r + prepayment r) (rows simulateLoan).
Proof.
  unfold simulateLoan. cbv zeta. cbn [totalPaid rows]. unfold sumRows.
  generalize (rowsSoFar finalState). intro rs. generalize 0.
  induction rs as [|r rs IH]; intro a; cbn [fold_left]; [reflexivity|].
  rewrite IH.
  assert (G : forall l x y, x == y ->
            fold_left (fun sum r0 => sum + (scheduledEmi r0 + prepayment r0)) l x
            == fold_left (fun sum r0 => sum + (scheduledEmi r0 + prepayment r0)) l y).
  { induction l as [|z l IHl]; intros x y E; cbn [fold_left]; [exact E|].
    apply IHl. rewrite E. reflexivity. }
  apply G. ring.
Qed.

(** X3.  The interest total the loop accumulates is the sum of the interest of
    the rows. *)
Theorem totalInterest_is_row_sum :
  totalInterest simulateLoan = sumRows interest (rows simulateLoan).
Proof.
  unfold simulateLoan. cbv zeta. cbn [totalInterest rows]. unfold finalState.
  apply (while_inv (fun st => interestSoFar st = sumRows interest (rowsSoFar st))).
  - intros st I _. cbn [interestSoFar rowsSoFar monthStep].
    rewrite sumRows_app, I. reflexivity.
  - reflexivity.
Qed.

(** What is outstanding when the simulation ends. *)
Lemma outstanding_last (i : nat) (r : MonthRow) :
  nth_error (rows simulateLoan) i = Some r ->
  S i = length (rows simulateLoan) ->
  closingPrincipal r = bal finalState.
Proof.
  intros H L. destruct (rows_last i (eq_sym L)) as (E & B).
  rewrite H in E. injection E as ->. exact B.
Qed.

Lemma paid_accounts :
  totalPaid simulateLoan
  <= totalInterest simulateLoan + (principal input - bal finalState)
  /\ ((forall r, In r (rows simulateLoan) -> interest r <= scheduledEmi r) ->
      totalPaid simulateLoan
      == totalInterest simulateLoan + (principal input - bal finalState)).
Proof.
  rewrite totalPaid_sumRows.
  unfold simulateLoan. cbv zeta. cbn [totalInterest rows]. unfold finalState.
  set (paid := sumRows (fun r => scheduledEmi r + prepayment r)).
  split.
  - apply (while_inv (fun st => paid (rowsSoFar st)
                                <= interestSoFar st + (principal input - bal st))).
    + intros st I C. apply loopCond_true in C as [B _].
      destruct (month_accounts _ B) as (_ & _ & E & _ & S1 & _).
      cbn [interestSoFar rowsSoFar bal monthStep]. unfold paid.
      rewrite sumRows_app. fold paid. rewrite E. lra.
    + cbn [interestSoFar rowsSoFar bal initState]. unfold paid, sumRows.
      cbn [fold_left]. lra.
  - apply (while_inv
             (fun st => (forall r, In r (rowsSoFar st) ->
                                    interest r <= scheduledEmi r) ->
                        paid (rowsSoFar st)
                        == interestSoFar st + (principal input - bal st))).
    + intros st I C All. apply loopCond_true in C as [B _].
      destruct (month_accounts _ B) as (_ & _ & E & _ & _ & S2 & _).
      cbn [interestSoFar rowsSoFar bal monthStep] in *. unfold paid.
      rewrite sumRows_app. fold paid. rewrite E.
      rewrite I by (intros r Hr; apply All, in_or_app; now left).
      rewrite S2 by (apply All, in_or_app; right; now left). ring.
    + intros _. cbn [interestSoFar rowsSoFar bal initState].
      unfold paid, sumRows. cbn [fold_left]. ring.
Qed.

(** X4.  The total paid is at most the total interest plus the principal
    retired (the principal less what is outstanding at the end), with
    equality when every row's payment covers its interest. *)
Theorem totalPaid_bound :
  totalPaid simulateLoan
  <= totalInterest simulateLoan + (principal input - bal finalState)
  /\ ((forall r, In r (rows simulateLoan) -> interest r <= scheduledEmi r) ->
      totalPaid simulateLoan
      == totalInterest simulateLoan + (principal input - bal finalState)).
Proof. exact paid_accounts. Qed.

(** ** Rows that are not the last *)





(** ** The yearly step-up *)






(** ** Interest *)

Lemma effectivePrincipal_bounds (st : SimState) :
  0 < bal st -> 0 <= savings st ->
  0 <= effectivePrincipal (monthRow st)
  /\ effectivePrincipal (monthRow st) <= bal st.
Proof.
  intros B Sv. apply savingsAfterIncrement_nonneg in Sv.
  change (effectivePrincipal (monthRow st))
    with (Qmax 0 (bal st - (if enabled (od input)
                            then savingsAfterIncrement st else 0))).
  split; [apply Qmax0_nonneg|].
  apply Q.max_lub; destruct (enabled (od input)); lra.
Qed.

Lemma interest_monthRow_bounds (st : SimState) :
  0 <= rMonthlyBase -> 0 < bal st -> 0 <= savings st ->
  0 <= interest (monthRow st)
  /\ interest (monthRow st) <= bal st * rMonthlyBase.
Proof.
  intros R B Sv. destruct (effectivePrincipal_bounds st B Sv) as [E0 E1].
  change (interest (monthRow st))
    with (effectivePrincipal (monthRow st) * rMonthlyBase).
  split; [now apply Qmult_le_0_compat|now apply Qmult_le_compat_r].
Qed.

Lemma bal_le_principal (k : nat) : bal (while k initState) <= principal input.
Proof.
  apply (while_inv (fun st => bal st <= principal input)).
  - intros st I C. apply loopCond_true in C as [B _].
    destruct (month_accounts _ B) as ((P0 & _) & (Q0 & _) & E & _).
    change (bal (monthStep st)) with (closingPrincipal (monthRow st)).
    rewrite E. lra.
  - cbn [bal initState]. lra.
Qed.

(** X8.  At a rate that is not negative, with savings that do not start below
    0, the interest of a row is not negative and is at most the interest on
    the full opening principal: the offset only ever lowers it. *)
Theorem interest_bounds (r : MonthRow) :
  0 <= annualRate input ->
  (enabled (od input) = true -> 0 <= startSavings (od input)) ->
  In r (rows simulateLoan) ->
  0 <= interest r
  /\ interest r <= openingPrincipal r * (annualRate input / 1200).
Proof.
  intros Rate Sv H. apply In_nth_error in H as [i H].
  apply rows_nth in H as (-> & C & _). apply loopCond_true in C as [B _].
  apply interest_monthRow_bounds;
    [now apply rMonthlyBase_nonneg|exact B|now apply savings_nonneg].
Qed.

(** The interest total against the months run, for the same configurations. *)
Lemma totalInterest_bounds :
  0 <= annualRate input ->
  (enabled (od input) = true -> 0 <= startSavings (od input)) ->
  0 <= totalInterest simulateLoan
  /\ totalInterest simulateLoan
     <= ofNat (months simulateLoan) * (principal input * rMonthlyBase).
Proof.
  intros Rate Sv. pose proof (rMonthlyBase_nonneg Rate) as R.
  unfold simulateLoan. cbv zeta. cbn [totalInterest months].
  unfold finalState.
  apply (while_inv
           (fun st => (0 <= savings st /\ bal st <= principal input)
                      /\ 0 <= interestSoFar st
                      /\ interestSoFar st
                         <= ofNat (m st) * (principal input * rMonthlyBase))).
  - intros st ((S0 & B1) & I0 & I1) C. apply loopCond_true in C as [B _].
    destruct (interest_monthRow_bounds st R B S0) as [J0 J1].
    destruct (month_accounts _ B) as ((P0 & _) & (Q0 & _) & E & _).
    assert (J2 : bal st * rMonthlyBase <= principal input * rMonthlyBase)
      by now apply Qmult_le_compat_r.
    split; [split|].
    + change (savings (monthStep st)) with (savingsBalance (monthRow st)).
      rewrite savingsBalance_monthRow.
      pose proof (transferAmount_bounds st S0). lra.
    + change (bal (monthStep st)) with (closingPrincipal (monthRow st)).
      rewrite E. lra.
    + cbn [interestSoFar m monthStep]. rewrite ofNat_S.
      set (c := principal input * rMonthlyBase) in *.
      set (t := ofNat (m st) * c) in *.
      assert (T : (ofNat (m st) + 1) * c == t + c) by (unfold t; ring).
      rewrite T. lra.
  - cbn [savings bal interestSoFar m initState]. change (ofNat 0) with 0.
    split; [split|]; [destruct (enabled (od input)); [now apply Sv|lra]|lra|lra].
Qed.

(** ** The annuity payment *)

(** X12.  The annuity payment is proportional to the principal. *)
Theorem emi_scales (c P r N : Q) :
  0 < c -> emi (c * P) r N == c * emi P r N.
Proof.
  intro Hc. unfold emi.
  assert (E : Qle_bool (c * P) 0 = Qle_bool P 0).
  { destruct (Qle_bool P 0) eqn:A.
    - apply Qle_bool_iff. apply Qle_bool_iff in A.
      setoid_replace 0 with (c * 0) by ring.
      now apply Qmult_le_l.
    - destruct (Qle_bool (c * P) 0) eqn:B; [|reflexivity].
      apply Qle_bool_iff in B.
      setoid_replace 0 with (c * 0) in B by ring.
      apply Qmult_le_l in B; [|exact Hc].
      apply Qle_bool_iff in B. congruence. }
  rewrite E.
  destruct (Qle_bool P 0 || Qle_bool N 0); [ring|].
  destruct (Qeq_bool r 0); cbv zeta; unfold Qdiv; ring.
Qed.

(** ** A plain loan at 0 % *)

Lemma ofNat_le (j k : nat) : (j <= k)%nat -> ofNat j <= ofNat k.
Proof. intro H. unfold ofNat. rewrite <- Zle_Qle. lia. Qed.





(** ** The summary card and the effective rate *)

Lemma empty_when_nonpositive :
  principal input <= 0 -> finalState = initState.
Proof. intro H. apply while_stop. apply loopCond_false. now left. Qed.

(** X13.  The card's payoff time is the payoff note of the result, at most 100
    years.  Its starting EMI is 0 for a principal that is not positive;
    otherwise it is the first month's payment, which in the monthly mode
    already carries the first add-on, capped at the principal plus the first
    month's interest. *)
Theorem summary_card_values :
  payoffTime (SummaryCard simulateLoan) = payoffDateNote simulateLoan
  /\ (yrs (SummaryCard simulateLoan) * 12 + mos (SummaryCard simulateLoan)
      = months simulateLoan
      /\ mos (SummaryCard simulateLoan) < 12
      /\ yrs (SummaryCard simulateLoan) <= 100)%nat
  /\ (principal input <= 0 -> initialEmi (SummaryCard simulateLoan) = 0)
  /\ (0 < principal input ->
      initialEmi (SummaryCard simulateLoan)
      = Qmin (if mode_eqb (mode (stepUp input)) monthly_add
                 && Qgtb (value (stepUp input)) 0
              then baseEmi + value (stepUp input) else baseEmi)
             (principal input + firstInterest)).
Proof.
  split.
  { unfold payoffTime, SummaryCard, simulateLoan. cbv zeta.
    cbn [yrs mos months payoffDateNote]. reflexivity. }
  split; [|split].
  - cbn [yrs mos SummaryCard].
    assert (L : (months simulateLoan <= 1200)%nat).
    { rewrite months_length, rows_emitted.
      pose proof (emitted_length 1200 initState) as L.
      cbn [m initState] in L. lia. }
    pose proof (Nat.div_mod_eq (months simulateLoan) 12).
    pose proof (Nat.mod_upper_bound (months simulateLoan) 12).
    assert (months simulateLoan / 12 < 101)%nat
      by (apply Nat.Div0.div_lt_upper_bound; lia).
    lia.
  - intro H. cbn [initialEmi SummaryCard].
    assert (E : rows simulateLoan = []).
    { change (rows simulateLoan) with (rowsSoFar finalState).
      now rewrite empty_when_nonpositive. }
    now rewrite E.
  - intro H. cbn [initialEmi SummaryCard]. rewrite (rows_first H).
    unfold firstInterest.
    change (scheduledEmi (monthRow initState))
      with (Qmin (fst (applyStepUp 0 baseEmi))
                 (principal input + interest (monthRow initState))).
    f_equal. unfold applyStepUp.
    destruct (mode_eqb (mode (stepUp input)) monthly_add
              && Qgtb (value (stepUp input)) 0); [reflexivity|].
    destruct (mode_eqb (mode (stepUp input)) yearly_percent
              && Qgtb (value (stepUp input)) 0); reflexivity.
Qed.

(** X14.  The effective rate is 0 for a principal that is not positive (the
    division by 0 is caught).  At a rate that is not negative, with savings
    that do not start below 0, it lies between 0 and twice the annual
    rate. *)
Theorem effectiveRate_bounds :
  (principal input <= 0 -> effectiveRate simulateLoan input = 0)
  /\ (0 <= annualRate input ->
      (enabled (od input) = true -> 0 <= startSavings (od input)) ->
      0 <= effectiveRate simulateLoan input
      /\ effectiveRate simulateLoan input <= 2 * annualRate input).
Proof.
  split.
  - intro H. unfold effectiveRate. cbv zeta.
    assert (E : months simulateLoan = 0%nat).
    { change (months simulateLoan) with (m finalState).
      now rewrite empty_when_nonpositive. }
    rewrite E.
    assert (Z : Qeq_bool (principal input / 2 * (ofNat 0 / 12)) 0 = true).
    { apply Qeq_bool_iff. change (ofNat 0) with 0. unfold Qdiv. ring. }
    now rewrite Z.
  - intros Rate Sv. destruct (totalInterest_bounds Rate Sv) as [T0 T1].
    unfold effectiveRate. cbv zeta.
    set (M := ofNat (months simulateLoan)) in *.
    set (T := totalInterest simulateLoan) in *.
    set (d := principal input / 2 * (M / 12)).
    destruct (Qeq_bool d 0) eqn:Z; [lra|].
    assert (Dn : ~ d == 0).
    { intro E. apply Qeq_bool_iff in E. congruence. }
    assert (M0 : 0 <= M) by (apply (ofNat_le 0); lia).
    assert (P0 : 0 < principal input).
    { destruct (Qlt_le_dec 0 (principal input)) as [P|P]; [exact P|].
      exfalso. apply Dn. unfold d, M.
      assert (E : months simulateLoan = 0%nat).
      { change (months simulateLoan) with (m finalState).
        now rewrite empty_when_nonpositive. }
      rewrite E. change (ofNat 0) with 0. unfold Qdiv. ring. }
    assert (Dp : 0 < d).
    { assert (0 <= d).
      { unfold d. apply Qmult_le_0_compat; unfold Qdiv;
          apply Qmult_le_0_compat; try lra; apply Qinv_le_0_compat; lra. }
      destruct (Qlt_le_dec 0 d) as [D|D]; [exact D|].
      exfalso. apply Dn. lra. }
    assert (K : M * (principal input * rMonthlyBase) * 100
                == 2 * annualRate input * d).
    { unfold d, rMonthlyBase. field. }
    split.
    + apply Qmult_le_0_compat; [|lra].
      apply Qle_shift_div_l; [exact Dp|lra].
    + setoid_replace (T / d * 100) with (T * 100 / d) by (field; exact Dn).
      apply Qle_shift_div_r; [exact Dp|]. rewrite <- K. lra.
Qed.

(** ** The months of the periodic transfer *)

Lemma Qtrunc_nonneg (x : Q) : 0 <= x -> Qtrunc x = Qfloor x.
Proof.
  destruct x as [n d]. unfold Qle, Qtrunc, Qfloor. cbn [Qnum Qden].
  intro H. apply Z.quot_div_nonneg; lia.
Qed.

Lemma Qtrunc_ofNat (a b : nat) :
  b <> 0%nat -> Qtrunc (ofNat a / ofNat b) = Z.of_nat (a / b).
Proof.
  intro N. unfold Qtrunc, ofNat, Qdiv, Qinv. cbn [inject_Z Qnum Qden].
  destruct (Z.of_nat b) as [|p|p] eqn:E; try lia.
  cbn [Qmult Qnum Qden]. rewrite Z.mul_1_r, Pos.mul_1_l.
  cbn [inject_Z Qnum].
  rewrite Z.quot_div_nonneg by lia. rewrite <- E. symmetry.
  apply Nat2Z.inj_div.
Qed.

Lemma ofNat_nonneg (k : nat) : 0 <= ofNat k.
Proof. apply (ofNat_le 0). lia. Qed.

(** [a % d] for a whole [a] and a divisor equal to a whole [b]. *)
Lemma Qrem_whole (a b : nat) (d : Q) :
  b <> 0%nat -> d == ofNat b -> Qrem (ofNat a) d == ofNat (a mod b).
Proof.
  intros N D. unfold Qrem.
  assert (B : 0 < ofNat b).
  { unfold ofNat. change 0 with (inject_Z 0). rewrite <- Zlt_Qlt. lia. }
  assert (T : Qtrunc (ofNat a / d) = Z.of_nat (a / b)).
  { rewrite <- (Qtrunc_ofNat a b N).
    rewrite !Qtrunc_nonneg.
    - now rewrite D.
    - apply Qle_shift_div_l; [exact B|]. pose proof (ofNat_nonneg a). lra.
    - rewrite D. apply Qle_shift_div_l; [exact B|].
      pose proof (ofNat_nonneg a). lra. }
  rewrite T, D. unfold ofNat, Qminus.
  rewrite <- inject_Z_mult, <- inject_Z_opp, <- inject_Z_plus.
  apply inject_Z_injective.
  pose proof (Nat.div_mod_eq a b). lia.
Qed.

Lemma fromSavingsIntervalMonths_whole (y : nat) :
  partFromSavingsEveryYYears (od input) == ofNat y ->
  fromSavingsIntervalMonths == ofNat (12 * y).
Proof.
  intro Y. unfold fromSavingsIntervalMonths, orZero.
  assert (E : ofNat (12 * y) == ofNat y * 12).
  { unfold ofNat. rewrite Nat2Z.inj_mul, inject_Z_mult. cbn. ring. }
  pose proof (ofNat_nonneg y).
  destruct (Qeq_bool (partFromSavingsEveryYYears (od input)) 0) eqn:Z.
  - apply Qeq_bool_iff in Z. rewrite E, <- Y, Z. apply Q.max_l. lra.
  - rewrite E, <- Y. apply Q.max_r. lra.
Qed.

(** X9.  With the offset enabled and a transfer period of a whole number [y] of
    years, savings leave the account in the months 12 y, 24 y, ... and in
    no other (in none at all when [y] is 0): there the transfer is the
    configured amount or the savings, whichever is smaller, if that is
    positive.  The savings a row shows are the savings after the month's
    increment less the transfer. *)
Theorem transfer_months (y i : nat) (r : MonthRow) :
  enabled (od input) = true ->
  partFromSavingsEveryYYears (od input) == ofNat y ->
  nth_error (rows simulateLoan) i = Some r ->
  transferAmount (while i initState)
  == (if (0 <? y)%nat && (0 <? i)%nat && (i mod (12 * y) =? 0)%nat
      then Qmax 0 (Qmin (partAmountEachTime (od input))
                        (savingsAfterIncrement (while i initState)))
      else 0)
  /\ closingSavings r
     == savingsAfterIncrement (while i initState)
        - transferAmount (while i initState).
Proof.
  intros En Y H. apply rows_nth in H as (-> & _ & M).
  split; [|apply savingsBalance_monthRow].
  pose proof (fromSavingsIntervalMonths_whole y Y) as F.
  unfold transferAmount. cbv zeta. rewrite En, M. cbn [andb].
  set (t := Qmin (partAmountEachTime (od input))
                 (savingsAfterIncrement (while i initState))).
  clearbody t. destruct y as [|y].
  - assert (G : Qgtb fromSavingsIntervalMonths 0 = false).
    { apply Qgtb_false. rewrite F. change (ofNat (12 * 0)) with 0. lra. }
    rewrite G. reflexivity.
  - assert (G : Qgtb fromSavingsIntervalMonths 0 = true).
    { apply Qgtb_true. rewrite F. unfold ofNat. change 0 with (inject_Z 0).
      rewrite <- Zlt_Qlt. lia. }
    rewrite G. change (0 <? Datatypes.S y)%nat with true. cbn [andb].
    destruct (0 <? i)%nat; cbn [andb]; [|reflexivity].
    assert (R : Qeq_bool (Qrem (ofNat i) fromSavingsIntervalMonths) 0
                = (i mod (12 * Datatypes.S y) =? 0)%nat).
    { pose proof (Qrem_whole i (12 * Datatypes.S y) _ ltac:(lia) F) as Q.
      destruct (i mod (12 * Datatypes.S y) =? 0)%nat eqn:Z.
      - apply Nat.eqb_eq in Z. apply Qeq_bool_iff. rewrite Q, Z. reflexivity.
      - apply Nat.eqb_neq in Z.
        destruct (Qeq_bool (Qrem (ofNat i) fromSavingsIntervalMonths) 0) eqn:W;
          [|reflexivity].
        apply Qeq_bool_iff in W. rewrite Q in W.
        change 0 with (ofNat 0) in W. apply ofNat_inj in W. contradiction. }
    rewrite R. destruct (i mod (12 * Datatypes.S y) =? 0)%nat; [|reflexivity].
    destruct (Qgtb t 0) eqn:P; cbn [andb].
    + apply Qgtb_true in P. symmetry. apply Q.max_r. lra.
    + apply Qgtb_false in P. symmetry. apply Q.max_l. exact P.
Qed.

(** What the ranges of the editors give for a row. *)
Lemma row_within_bounds (r : MonthRow) :
  0 <= annualRate input -> 0 <= startSavings (od input) ->
  In r (rows simulateLoan) ->
  effectivePrincipal r <= openingPrincipal r
  /\ 0 <= interest r
  /\ interest r <= openingPrincipal r * (annualRate input / 1200)
  /\ 0 <= closingSavings r.
Proof.
  intros Rate Sv H. apply In_nth_error in H as [i H].
  pose proof (savings_nonneg i (fun _ => Sv)) as S0.
  pose proof (savings_nonneg (Datatypes.S i) (fun _ => Sv)) as S1.
  apply rows_nth in H as (-> & C & _). rewrite while_S, C in S1.
  apply loopCond_true in C as [B _].
  destruct (effectivePrincipal_bounds _ B S0) as [_ E].
  destruct (interest_monthRow_bounds _ (rMonthlyBase_nonneg Rate) B S0)
    as [I0 I1].
  repeat split; assumption.
Qed.

End Run.

(** ** A disabled savings offset *)

Lemma monthRow_disabled (input : LoanInput) (o : ODConfig) (st : SimState) :
  enabled (od input) = false -> enabled o = false ->
  monthRow (withOD input o) st = monthRow input st.
Proof.
  intros H1 H2. unfold monthRow, applyStepUp, computePrepay, rMonthlyBase.
  cbn [withOD od stepUp prepay annualRate]. rewrite H1, H2. reflexivity.
Qed.

Lemma while_disabled (input : LoanInput) (o : ODConfig) :
  enabled (od input) = false -> enabled o = false ->
  forall fuel st, while (withOD input o) fuel st = while input fuel st.
Proof.
  intros H1 H2. induction fuel as [|fuel IH]; intro st; [reflexivity|].
  cbn [while]. destruct (loopCond st); [|reflexivity].
  rewrite IH. f_equal. unfold monthStep.
  rewrite (monthRow_disabled input o st H1 H2). reflexivity.
Qed.

(** X10.  With the offset switched off, the other fields of [od] play no part:
    the result is the same for any of them, and every row shows savings of
    0 and an effective principal equal to the opening principal. *)
Theorem disabled_offset_is_inert (input : LoanInput) (o : ODConfig) :
  enabled (od input) = false ->
  enabled o = false ->
  simulateLoan (withOD input o) = simulateLoan input
  /\ (forall r, In r (rows (simulateLoan input)) ->
       savingsBalance r = 0 /\ closingSavings r = 0
       /\ effectivePrincipal r == openingPrincipal r).
Proof.
  intros H1 H2. split.
  - assert (I : initState (withOD input o) = initState input).
    { unfold initState. cbn [withOD od principal]. rewrite H1, H2.
      reflexivity. }
    unfold simulateLoan, finalState.
    rewrite (while_disabled input o H1 H2), I. reflexivity.
  - intros r H. apply In_nth_error in H as [i H].
    apply rows_nth in H as (-> & C & _). apply loopCond_true in C as [B _].
    assert (Z : savings (while input i (initState input)) = 0).
    { apply (while_inv input (fun st => savings st = 0)).
      - intros st S0 _. cbn [savings monthStep closingSavings monthRow].
        rewrite H1. cbn [andb]. exact S0.
      - cbn [savings initState]. now rewrite H1. }
    unfold monthRow.
    cbn [savingsBalance closingSavings effectivePrincipal openingPrincipal].
    rewrite H1. cbn [andb]. repeat split; try exact Z.
    rewrite Q.max_r; lra.
Qed.

End Simulator.

(** * The chart data, the insights and the editors *)

(** ** Keys of a chart point *)

Lemma getProp_setProp_same (k : string) (v : ChartValue) (o : ChartPoint) :
  getProp k (setProp k v o) = Some v.
Proof.
  induction o as [|[k' v'] o IH]; cbn [setProp getProp].
  - now rewrite String.eqb_refl.
  - destruct (String.eqb k k') eqn:E; cbn [getProp].
    + now rewrite String.eqb_refl.
    + now rewrite E.
Qed.

Lemma getProp_setProp_other (k k' : string) (v : ChartValue) (o : ChartPoint) :
  k <> k' -> getProp k (setProp k' v o) = getProp k o.
Proof.
  intro N. induction o as [|[k2 v2] o IH]; cbn [setProp getProp].
  - apply String.eqb_neq in N. now rewrite N.
  - destruct (String.eqb k' k2) eqn:E; cbn [getProp].
    + apply String.eqb_eq in E. subst k2.
      apply String.eqb_neq in N. now rewrite N.
    + destruct (String.eqb k k2); [reflexivity|exact IH].
Qed.

Lemma string_length_append (a b : string) :
  String.length (a ++ b) = (String.length a + String.length b)%nat.
Proof. induction a as [|c a IH]; cbn; [reflexivity|now rewrite IH]. Qed.

Lemma string_append_inj_l (s : string) : forall a b : string,
  (a ++ s = b ++ s)%string -> a = b.
Proof.
  induction a as [|x a IH]; intros [|y b] E; cbn in E.
  - reflexivity.
  - apply (f_equal String.length) in E. cbn in E.
    rewrite string_length_append in E. lia.
  - apply (f_equal String.length) in E. cbn in E.
    rewrite string_length_append in E. lia.
  - injection E as -> E. f_equal. now apply IH.
Qed.

Lemma lastChar_append (a : string) (c : Ascii.ascii) (s : string) :
  lastChar (a ++ String c s) = lastChar (String c s).
Proof.
  induction a as [|x a IH]; [reflexivity|].
  cbn [append]. rewrite <- IH.
  destruct (a ++ String c s)%string eqn:E; [|reflexivity].
  destruct a; discriminate E.
Qed.

(** Two keys with different suffixes differ, whatever the labels. *)
Lemma key_suffix (a b : string) (c1 c2 : Ascii.ascii) (s1 s2 : string) :
  lastChar (String c1 s1) <> lastChar (String c2 s2) ->
  (a ++ String c1 s1 <> b ++ String c2 s2)%string.
Proof.
  intros N E. apply N. rewrite <- (lastChar_append a), <- (lastChar_append b).
  now rewrite E.
Qed.

Lemma key_m (a : string) (c1 c2 : Ascii.ascii) (s : string) :
  ("m" <> a ++ String c1 (String c2 s))%string.
Proof.
  intro E. apply (f_equal String.length) in E.
  rewrite string_length_append in E. cbn in E. lia.
Qed.

Lemma key_label (a b s : string) : a <> b -> (a ++ s <> b ++ s)%string.
Proof. intros N E. apply N. exact (string_append_inj_l s a b E). Qed.

Ltac key_neq :=
  solve [ apply key_m
        | apply not_eq_sym; apply key_m
        | apply key_suffix; cbn; discriminate
        | apply key_label; assumption
        | apply key_label; apply not_eq_sym; assumption ].

Ltac lookup :=
  unfold chartPoint; cbv zeta;
  repeat (rewrite getProp_setProp_other by key_neq);
  apply getProp_setProp_same.

(** ** The loop *)

Lemma mergeLoop_spec (A B : SimulationResult) (la lb : string) (todo : nat) :
  forall i data,
    mergeLoop A B la lb todo i data
    = data ++ map (chartPoint A B la lb) (seq i todo).
Proof.
  induction todo as [|todo IH]; intros i data; cbn [mergeLoop seq map].
  - now rewrite app_nil_r.
  - rewrite IH, <- app_assoc. reflexivity.
Qed.

Lemma mergeForChart_nth (A B : SimulationResult) (la lb : string)
  (i : nat) (p : ChartPoint) :
  nth_error (mergeForChart A B la lb) i = Some p ->
  p = chartPoint A B la lb i.
Proof.
  unfold mergeForChart. cbv zeta. rewrite mergeLoop_spec. cbn [app].
  intro H.
  assert (L : (i < Nat.max (length (rows A)) (length (rows B)))%nat).
  { assert (X : nth_error (map (chartPoint A B la lb)
                             (seq 0 (Nat.max (length (rows A))
                                             (length (rows B))))) i <> None)
      by congruence.
    apply nth_error_Some in X. now rewrite length_map, length_seq in X. }
  rewrite nth_error_map, nth_error_seq in H.
  apply Nat.ltb_lt in L. rewrite L in H. cbn [option_map Nat.add] in H.
  now injection H as <-.
Qed.

(** X15.  The chart has one point for each month of the longer schedule; point
    [i] is numbered [i + 1]. *)
Theorem chart_shape (A B : SimulationResult) (la lb : string) :
  length (mergeForChart A B la lb)
  = Nat.max (length (rows A)) (length (rows B))
  /\ (forall i p, nth_error (mergeForChart A B la lb) i = Some p ->
       getProp "m" p = Some (Num (ofNat (i + 1)))).
Proof.
  split.
  - unfold mergeForChart. cbv zeta.
    now rewrite mergeLoop_spec, length_app, length_map, length_seq.
  - intros i p H. rewrite (mergeForChart_nth _ _ _ _ _ _ H). lookup.
Qed.

(** X16.  With two different labels, a point holds the closing principal, the
    closing savings and the interest of both schedules in that month, each
    under its own key, and [null] for a schedule that has ended. *)
Theorem chart_series (A B : SimulationResult) (la lb : string)
  (i : nat) (p : ChartPoint) :
  la <> lb ->
  nth_error (mergeForChart A B la lb) i = Some p ->
  getProp (la ++ " Principal") p = Some (rowField closingPrincipal (rows A) i)
  /\ getProp (lb ++ " Principal") p = Some (rowField closingPrincipal (rows B) i)
  /\ getProp (la ++ " Savings") p = Some (rowField closingSavings (rows A) i)
  /\ getProp (lb ++ " Savings") p = Some (rowField closingSavings (rows B) i)
  /\ getProp (la ++ " Interest") p = Some (rowField interest (rows A) i)
  /\ getProp (lb ++ " Interest") p = Some (rowField interest (rows B) i).
Proof.
  intros N H. rewrite (mergeForChart_nth _ _ _ _ _ _ H).
  repeat split; lookup.
Qed.

(** X17.  With the same label for both loans the keys collide: a point has four
    properties, and the three series hold the second schedule's values (the
    first schedule's are replaced). *)
Theorem chart_label_collision (A B : SimulationResult) (la : string)
  (i : nat) (p : ChartPoint) :
  nth_error (mergeForChart A B la la) i = Some p ->
  length p = 4%nat
  /\ getProp (la ++ " Principal") p = Some (rowField closingPrincipal (rows B) i)
  /\ getProp (la ++ " Savings") p = Some (rowField closingSavings (rows B) i)
  /\ getProp (la ++ " Interest") p = Some (rowField interest (rows B) i).
Proof.
  intro H. rewrite (mergeForChart_nth _ _ _ _ _ _ H). split; [|repeat split; lookup].
  unfold chartPoint. cbv zeta. cbn [setProp].
  assert (E1 : String.eqb (la ++ " Principal") "m" = false)
    by (apply String.eqb_neq; key_neq).
  assert (E2 : String.eqb (la ++ " Savings") "m" = false)
    by (apply String.eqb_neq; key_neq).
  assert (E3 : String.eqb (la ++ " Interest") "m" = false)
    by (apply String.eqb_neq; key_neq).
  assert (E4 : String.eqb (la ++ " Savings") (la ++ " Principal") = false)
    by (apply String.eqb_neq; key_neq).
  assert (E5 : String.eqb (la ++ " Interest") (la ++ " Principal") = false)
    by (apply String.eqb_neq; key_neq).
  assert (E6 : String.eqb (la ++ " Interest") (la ++ " Savings") = false)
    by (apply String.eqb_neq; key_neq).
  repeat (rewrite ?E1, ?E2, ?E3, ?E4, ?E5, ?E6, ?String.eqb_refl;
          cbn [setProp]).
  reflexivity.
Qed.

(** X18.  The chart of two simulations has as many points as the longer of the
    two took months, at most 1200. *)
Theorem chart_of_simulations (pow : Q -> Q -> Q) (a b : LoanInput)
  (la lb : string) :
  length (mergeForChart (simulateLoan pow a) (simulateLoan pow b) la lb)
  = Nat.max (months (simulateLoan pow a)) (months (simulateLoan pow b))
  /\ (length (mergeForChart (simulateLoan pow a) (simulateLoan pow b) la lb)
      <= 1200)%nat.
Proof.
  assert (L : length (mergeForChart (simulateLoan pow a) (simulateLoan pow b)
                                    la lb)
              = Nat.max (length (rows (simulateLoan pow a)))
                        (length (rows (simulateLoan pow b)))).
  { unfold mergeForChart. cbv zeta.
    now rewrite mergeLoop_spec, length_app, length_map, length_seq. }
  rewrite L, !months_length. split; [reflexivity|].
  rewrite !rows_emitted.
  pose proof (emitted_length a 1200 (initState pow a)) as La.
  pose proof (emitted_length b 1200 (initState pow b)) as Lb.
  cbn [m initState] in La, Lb. lia.
Qed.

(** ** The insights *)

(** X19.  The insights do not depend on which loan is entered first: with the
    two results and their labels exchanged, the loan named as faster, the
    lead and its split into years and months are the same, and the interest
    difference changes sign.  The lead is the difference of the months. *)
Theorem insights_symmetric (A B : SimulationResult) (la lb : string) :
  faster (Insights B A lb la) = faster (Insights A B la lb)
  /\ fasterBy (Insights B A lb la) = fasterBy (Insights A B la lb)
  /\ fasterYrs (Insights B A lb la) = fasterYrs (Insights A B la lb)
  /\ fasterMos (Insights B A lb la) = fasterMos (Insights A B la lb)
  /\ interestDiff (Insights B A lb la) == - interestDiff (Insights A B la lb)
  /\ (fasterBy (Insights A B la lb)
      = Nat.max (months A) (months B) - Nat.min (months A) (months B)
      /\ fasterYrs (Insights A B la lb) * 12 + fasterMos (Insights A B la lb)
         = fasterBy (Insights A B la lb))%nat.
Proof.
  unfold Insights. cbv zeta.
  cbn [faster fasterBy fasterYrs fasterMos interestDiff].
  assert (E : Z.abs_nat (Z.of_nat (months B) - Z.of_nat (months A))
              = Z.abs_nat (Z.of_nat (months A) - Z.of_nat (months B))) by lia.
  rewrite E. repeat split; try ring.
  - destruct (months A <? months B)%nat eqn:X;
      destruct (months B <? months A)%nat eqn:Y; try reflexivity.
    apply Nat.ltb_lt in X, Y. lia.
  - lia.
  - pose proof (Nat.div_mod_eq
                  (Z.abs_nat (Z.of_nat (months A) - Z.of_nat (months B))) 12).
    lia.
Qed.

(** ** The editors *)

Lemma whole_floor (n : Q) : whole (Qmax 0 (floorQ n)).
Proof.
  unfold whole, floorQ. destruct (Z_le_gt_dec 0 (Qfloor n)) as [P|P].
  - exists (Z.to_nat (Qfloor n)). unfold ofNat. rewrite Z2Nat.id by exact P.
    apply Q.max_r. change 0 with (inject_Z 0). rewrite <- Zle_Qle. exact P.
  - exists 0%nat. change (ofNat 0) with 0.
    apply Q.max_l. change 0 with (inject_Z 0). rewrite <- Zle_Qle. lia.
Qed.

Lemma applyEdit_inRange (c : LoanInput) (e : Edit) :
  inRange c -> inRange (applyEdit c e).
Proof.
  unfold inRange. intros (H1 & H2 & H3 & H4 & H5 & H6 & H7 & H8 & H9 & H10).
  destruct e; cbn; repeat split;
    try assumption; try apply Q.le_max_l; apply whole_floor.
Qed.

Lemma loanA_inRange : inRange loanA.
Proof.
  unfold inRange, loanA. cbn.
  repeat split; try (vm_compute; discriminate).
  - exists 25%nat. reflexivity.
  - exists 0%nat. reflexivity.
  - exists 0%nat. reflexivity.
  - exists 2%nat. reflexivity.
Qed.

Lemma loanB_inRange : inRange loanB.
Proof.
  unfold inRange, loanB. cbn.
  repeat split; try (vm_compute; discriminate).
  - exists 25%nat. reflexivity.
  - exists 0%nat. reflexivity.
  - exists 0%nat. reflexivity.
  - exists 0%nat. reflexivity.
Qed.

Lemma edits_inRange (es : list Edit) : forall c,
  inRange c -> inRange (fold_left applyEdit es c).
Proof.
  induction es as [|e es IH]; intros c H; cbn [fold_left]; [exact H|].
  apply IH. now apply applyEdit_inRange.
Qed.

(** X20.  Every change handler keeps a configuration within the ranges of
    [inRange] (amounts, rate and savings not negative; years, months and
    the transfer period whole and not negative), the two opening loans are
    within them, and so is every configuration that a sequence of edits of
    either reaches; its tenure is then a whole number of months. *)
Theorem editors_keep_range :
  (forall c e, inRange c -> inRange (applyEdit c e))
  /\ inRange loanA /\ inRange loanB
  /\ (forall es c, c = loanA \/ c = loanB ->
       inRange (fold_left applyEdit es c)
       /\ whole (totalTenureMonths (fold_left applyEdit es c))).
Proof.
  split; [exact applyEdit_inRange|].
  split; [exact loanA_inRange|]. split; [exact loanB_inRange|].
  intros es c Hc.
  assert (R : inRange (fold_left applyEdit es c)).
  { apply edits_inRange. destruct Hc as [->| ->];
      [exact loanA_inRange|exact loanB_inRange]. }
  split; [exact R|].
  destruct R as (_ & (y & Hy) & (x & Hx) & _).
  exists (y * 12 + x)%nat. unfold totalTenureMonths. rewrite Hy, Hx.
  unfold ofNat. rewrite Nat2Z.inj_add, Nat2Z.inj_mul, inject_Z_plus, inject_Z_mult.
  reflexivity.
Qed.

(** X21.  Whatever is typed into the editors, every row of the resulting
    simulation has an effective principal at most the opening principal, an
    interest between 0 and the interest on the opening principal, and
    savings that are not negative. *)
Theorem edited_loans_simulate_within_bounds (pow : Q -> Q -> Q)
  (es : list Edit) (c : LoanInput) (r : MonthRow) :
  c = loanA \/ c = loanB ->
  In r (rows (simulateLoan pow (fold_left applyEdit es c))) ->
  effectivePrincipal r <= openingPrincipal r
  /\ 0 <= interest r
  /\ interest r
     <= openingPrincipal r * (annualRate (fold_left applyEdit es c) / 1200)
  /\ 0 <= closingSavings r.
Proof.
  intros Hc H.
  assert (R : inRange (fold_left applyEdit es c)).
  { apply edits_inRange. destruct Hc as [->| ->];
      [exact loanA_inRange|exact loanB_inRange]. }
  destruct R as (_ & _ & _ & Rate & _ & _ & _ & Sv & _).
  exact (row_within_bounds pow _ r Rate Sv H).
Qed.

(** * The simulator on concrete configurations *)

(** [powZ] stands for [Math.pow]. *)

Ltac by_computing := vm_compute; easy.

(** The monthly mode is not a flat add-on: after month 0
    the variable [schedEmi] has changed, and month 1 resolves the initial
    payment plus twice the amount (102000, not 101000). *)
Lemma monthly_add_not_flat :
  mode (stepUp cfgMonthlyAdd) = monthly_add
  /\ 0 < value (stepUp cfgMonthlyAdd)
  /\ loopCond (while cfgMonthlyAdd 1 (initState powZ cfgMonthlyAdd)) = true
  /\ ~ schedEmi (while cfgMonthlyAdd 1 (initState powZ cfgMonthlyAdd))
       == schedEmi (initState powZ cfgMonthlyAdd)
  /\ ~ fst (applyStepUp cfgMonthlyAdd 1
              (schedEmi (while cfgMonthlyAdd 1
                           (initState powZ cfgMonthlyAdd))))
       == baseEmi powZ cfgMonthlyAdd + value (stepUp cfgMonthlyAdd)
  /\ map (fun r => Qred (scheduledEmi r))
         (rows (simulateLoan powZ cfgMonthlyAdd))
     = [101000; 102000; 97000].
Proof. repeat split; by_computing. Qed.

Lemma monthly_add_accumulates_witness :
  fst (applyStepUp cfgMonthlyAdd 1
         (schedEmi (while cfgMonthlyAdd 1 (initState powZ cfgMonthlyAdd))))
  == baseEmi powZ cfgMonthlyAdd + (ofNat 1 + 1) * value (stepUp cfgMonthlyAdd).
Proof.
  assert (Hm : mode (stepUp cfgMonthlyAdd) = monthly_add) by reflexivity.
  assert (Hv : 0 < value (stepUp cfgMonthlyAdd)) by reflexivity.
  assert (Hc : loopCond (while cfgMonthlyAdd 1
                           (initState powZ cfgMonthlyAdd)) = true)
    by (vm_compute; reflexivity).
  exact (proj2 (proj2 (proj2 (proj2
           (monthly_add_accumulates powZ cfgMonthlyAdd Hm Hv)) 1%nat Hc))).
Defined.

(** A tenure of 0 months with a positive principal does not give an empty
    result: the loop runs to the bound. *)
Lemma zero_tenure_not_empty :
  totalTenureMonths cfgZeroTenure <= 0
  /\ baseEmi powZ cfgZeroTenure == 0
  /\ length (rows (simulateLoan powZ cfgZeroTenure)) = 1200%nat
  /\ rows (simulateLoan powZ cfgZeroTenure) <> [].
Proof.
  split; [by_computing|]. split; [by_computing|].
  assert (L : length (rows (simulateLoan powZ cfgZeroTenure)) = 1200%nat).
  { apply plain_slow_schedule_hits_cap.
    - left. reflexivity.
    - split; by_computing.
    - reflexivity.
    - by_computing.
    - by_computing.
    - by_computing. }
  split; [exact L|]. intro E. rewrite E in L. discriminate L.
Qed.

Lemma nonpositive_principal_empty_result_witness :
  baseEmi powZ cfgNoPrincipal = 0
  /\ rows (simulateLoan powZ cfgNoPrincipal) = []
  /\ totalInterest (simulateLoan powZ cfgNoPrincipal) = 0
  /\ totalPaid (simulateLoan powZ cfgNoPrincipal) = 0
  /\ months (simulateLoan powZ cfgNoPrincipal) = 0%nat
  /\ payoffDateNote (simulateLoan powZ cfgNoPrincipal) = "0y 0m"%string.
Proof.
  assert (H : principal cfgNoPrincipal <= 0) by by_computing.
  destruct (nonpositive_principal_empty_result powZ cfgNoPrincipal) as [A B].
  split; [exact (A (or_introl H))|exact (B H)].
Defined.

(** A one-time prepayment set for a month the loan does not reach is in no
    row at all. *)
Lemma late_one_time_prepayment_in_no_row :
  0 < oneTimeAmount (prepay cfgLatePrepay)
  /\ ~ exists r, In r (rows (simulateLoan powZ cfgLatePrepay))
                /\ ofNat (monthIndex r) == oneTimeMonth (prepay cfgLatePrepay).
Proof.
  split; [by_computing|]. intros (r & Hin & E).
  apply (in_map monthIndex) in Hin.
  assert (M : map monthIndex (rows (simulateLoan powZ cfgLatePrepay))
              = [0%nat; 1%nat]) by (vm_compute; reflexivity).
  rewrite M in Hin. clear M. revert E.
  destruct Hin as [<-|[<-|[]]]; by_computing.
Qed.

Lemma one_time_prepayment_locality_witness :
  computePrepay cfgPrepay 1
  == oneTimeAmount (prepay cfgPrepay) + recurringPrepay cfgPrepay 1.
Proof.
  assert (H : 0 < oneTimeAmount (prepay cfgPrepay)) by reflexivity.
  assert (E : ofNat 1 == oneTimeMonth (prepay cfgPrepay)) by reflexivity.
  exact (proj1 (one_time_prepayment_locality powZ cfgPrepay H) 1%nat E).
Defined.

Lemma simulation_ends_at_zero_or_cap_witness :
  (length (rows (simulateLoan powZ cfgPlain)) <= 1200)%nat.
Proof.
  exact (proj1 (proj2 (proj2 (simulation_ends_at_zero_or_cap powZ cfgPlain)))).
Defined.

(** A payment below the first month's interest does not keep a prepayment
    from retiring the loan: one row, closing at 0. *)
Lemma small_payment_prepaid_at_once :
  baseEmi powZ cfgPrepaidAtOnce <= firstInterest powZ cfgPrepaidAtOnce
  /\ length (rows (simulateLoan powZ cfgPrepaidAtOnce)) = 1%nat
  /\ map (fun r => Qred (closingPrincipal r))
         (rows (simulateLoan powZ cfgPrepaidAtOnce)) = [0].
Proof. repeat split; by_computing. Qed.

Lemma payment_within_interest_hits_cap_witness :
  length (rows (simulateLoan powZ cfgZeroTenure)) = 1200%nat.
Proof.
  assert (S : noStepUp cfgZeroTenure) by (left; reflexivity).
  assert (P : noPrepay cfgZeroTenure) by (split; by_computing).
  assert (O : noOffset cfgZeroTenure) by reflexivity.
  assert (Pos : 0 < principal cfgZeroTenure) by reflexivity.
  assert (Small : baseEmi powZ cfgZeroTenure <= firstInterest powZ cfgZeroTenure)
    by by_computing.
  exact (proj1 (proj2
           (payment_within_interest_hits_cap powZ cfgZeroTenure S P O Pos Small))).
Defined.

(** A plain schedule with a payment above the first month's interest need
    not reach 0: over 200 years the loop is cut at 1200 rows, the last one
    closing above 0. *)
Lemma long_tenure_stops_above_zero :
  noStepUp cfgLong /\ noPrepay cfgLong /\ noOffset cfgLong
  /\ firstInterest powZ cfgLong < baseEmi powZ cfgLong
  /\ length (rows (simulateLoan powZ cfgLong)) = 1200%nat
  /\ exists r, nth_error (rows (simulateLoan powZ cfgLong)) 1199 = Some r
               /\ ~ closingPrincipal r == 0.
Proof.
  assert (S : noStepUp cfgLong) by (left; reflexivity).
  assert (P : noPrepay cfgLong) by (split; by_computing).
  assert (O : noOffset cfgLong) by reflexivity.
  split; [exact S|]. split; [exact P|]. split; [exact O|].
  split; [by_computing|].
  assert (R : 0 <= rMonthlyBase cfgLong) by by_computing.
  assert (E : 0 <= baseEmi powZ cfgLong) by by_computing.
  assert (Slow : 1200 * baseEmi powZ cfgLong < principal cfgLong)
    by by_computing.
  destruct (plain_slow_schedule_hits_cap powZ cfgLong S P O R E Slow)
    as (L & r & Hr & _ & Hp).
  split; [exact L|]. exists r. split; [exact Hr|]. lra.
Qed.

Lemma plain_schedule_converges_witness :
  0 <= closingPrincipal (monthRow cfgPlain (initState powZ cfgPlain))
  /\ closingPrincipal (monthRow cfgPlain (initState powZ cfgPlain))
     < openingPrincipal (monthRow cfgPlain (initState powZ cfgPlain)).
Proof.
  assert (S : noStepUp cfgPlain) by (left; reflexivity).
  assert (P : noPrepay cfgPlain) by (split; by_computing).
  assert (O : noOffset cfgPlain) by reflexivity.
  assert (R : 0 <= annualRate cfgPlain) by by_computing.
  assert (B : firstInterest powZ cfgPlain < baseEmi powZ cfgPlain)
    by by_computing.
  assert (H0 : nth_error (rows (simulateLoan powZ cfgPlain)) 0
               = Some (monthRow cfgPlain (initState powZ cfgPlain)))
    by (vm_compute; reflexivity).
  exact (proj1 (plain_schedule_converges powZ cfgPlain S P O R B) 0%nat _ H0).
Defined.

Lemma zero_rate_payment_and_interest_witness :
  baseEmi powZ cfgPlain = principal cfgPlain / totalTenureMonths cfgPlain
  /\ totalInterest (simulateLoan powZ cfgPlain) == 0.
Proof.
  assert (R : annualRate cfgPlain == 0) by reflexivity.
  assert (P : 0 < principal cfgPlain) by reflexivity.
  assert (N : 0 < totalTenureMonths cfgPlain) by reflexivity.
  exact (zero_rate_payment_and_interest powZ cfgPlain R P N).
Defined.

Lemma offset_bound_witness :
  effectivePrincipal (monthRow cfgOffset (initState powZ cfgOffset))
  <= openingPrincipal (monthRow cfgOffset (initState powZ cfgOffset)).
Proof.
  assert (E : enabled (od cfgOffset) = true) by reflexivity.
  assert (S : 0 <= startSavings (od cfgOffset)) by by_computing.
  assert (I : In (monthRow cfgOffset (initState powZ cfgOffset))
                 (rows (simulateLoan powZ cfgOffset))).
  { apply (nth_error_In _ 0). apply rows_first. reflexivity. }
  exact (proj1 (offset_bound powZ cfgOffset _ E S I)).
Defined.

Lemma closing_is_next_opening_witness :
  closingPrincipal (monthRow cfgPlain (initState powZ cfgPlain))
  = openingPrincipal
      (monthRow cfgPlain (while cfgPlain 1 (initState powZ cfgPlain))).
Proof.
  assert (H0 : nth_error (rows (simulateLoan powZ cfgPlain)) 0
               = Some (monthRow cfgPlain (initState powZ cfgPlain)))
    by (vm_compute; reflexivity).
  assert (H1 : nth_error (rows (simulateLoan powZ cfgPlain)) 1
               = Some (monthRow cfgPlain
                         (while cfgPlain 1 (initState powZ cfgPlain))))
    by (vm_compute; reflexivity).
  exact (closing_is_next_opening powZ cfgPlain 0 _ _ H0 H1).
Defined.

Lemma savings_fields_agree_witness :
  savingsBalance (monthRow cfgOffset (initState powZ cfgOffset))
  = closingSavings (monthRow cfgOffset (initState powZ cfgOffset)).
Proof.
  assert (H0 : nth_error (rows (simulateLoan powZ cfgOffset)) 0
               = Some (monthRow cfgOffset (initState powZ cfgOffset)))
    by (vm_compute; reflexivity).
  exact (proj1 (savings_fields_agree powZ cfgOffset 0 _ H0)).
Defined.

(** A transfer month: 300000 of savings, of which 50000 move to the loan in
    month 12.  The row shows 250000 in both savings fields, while the
    effective principal, 700000, was taken from the 300000. *)
Example transfer_month_row :
  let cfg := mkInput "transfer" 1000000 20 0 12 (mkStepUp none 0)
                     (mkPrepay 0 0 0) (mkOD true 300000 0 1 50000) in
  let r := monthRow cfg (mkState 1000000 300000 10000 12 [] 0) in
  (Qred (savingsBalance r), Qred (closingSavings r),
   Qred (effectivePrincipal r), Qred (prepayment r),
   Qred (openingPrincipal r - savingsBalance r))
  = (250000, 250000, 700000, 50000, 750000).
Proof. vm_compute. reflexivity. Qed.

(** The offset bound rests on savings that start at 0 or above, the range
    the configuration form keeps them in.  Fed an opening balance of -100
    and no monthly increment, the body does not clamp it, and the first row
    has an effective principal of 1100 on an opening principal of 1000. *)
Example negative_savings_row :
  let cfg := mkInput "negative savings" 1000 1 0 12 (mkStepUp none 0)
                     (mkPrepay 0 0 0) (mkOD true (-100) 0 0 0) in
  let r := monthRow cfg (initState powZ cfg) in
  (Qred (openingPrincipal r), Qred (effectivePrincipal r)) = (1000, 1100).
Proof. vm_compute. reflexivity. Qed.

(** ** The further properties on concrete configurations *)

Lemma cfgPlain_first_row :
  nth_error (rows (simulateLoan powZ cfgPlain)) 0
  = Some (monthRow cfgPlain (initState powZ cfgPlain)).
Proof. apply rows_first. reflexivity. Qed.

Lemma cfgOffset_first_row :
  In (monthRow cfgOffset (initState powZ cfgOffset))
     (rows (simulateLoan powZ cfgOffset)).
Proof. apply (nth_error_In _ 0). apply rows_first. reflexivity. Qed.

Lemma rows_in_month_order_witness :
  monthIndex (monthRow cfgPlain (initState powZ cfgPlain)) = 0%nat
  /\ year (monthRow cfgPlain (initState powZ cfgPlain)) = (0 / 12 + 1)%nat.
Proof.
  destruct (rows_in_month_order powZ cfgPlain 0 _ cfgPlain_first_row)
    as (A & B & _).
  split; assumption.
Defined.

Lemma balance_accounts_witness :
  closingPrincipal (monthRow cfgOffset (initState powZ cfgOffset))
  == openingPrincipal (monthRow cfgOffset (initState powZ cfgOffset))
     - principalPaid (monthRow cfgOffset (initState powZ cfgOffset))
     - prepayment (monthRow cfgOffset (initState powZ cfgOffset)).
Proof.
  exact (proj1 (proj2 (proj2
           (balance_accounts powZ cfgOffset _ cfgOffset_first_row)))).
Defined.

Lemma payment_split_witness :
  scheduledEmi (monthRow cfgOffset (initState powZ cfgOffset))
  <= interest (monthRow cfgOffset (initState powZ cfgOffset))
     + principalPaid (monthRow cfgOffset (initState powZ cfgOffset)).
Proof.
  exact (proj1 (proj2 (payment_split powZ cfgOffset _ cfgOffset_first_row))).
Defined.



Lemma interest_bounds_witness :
  0 <= interest (monthRow cfgOffset (initState powZ cfgOffset))
  /\ interest (monthRow cfgOffset (initState powZ cfgOffset))
     <= openingPrincipal (monthRow cfgOffset (initState powZ cfgOffset))
        * (annualRate cfgOffset / 1200).
Proof.
  assert (R : 0 <= annualRate cfgOffset) by by_computing.
  assert (S : enabled (od cfgOffset) = true -> 0 <= startSavings (od cfgOffset))
    by (intros _; by_computing).
  exact (interest_bounds powZ cfgOffset _ R S cfgOffset_first_row).
Defined.

Lemma emi_scales_witness :
  emi powZ (2 * 300000) (1 # 100) 36 == 2 * emi powZ 300000 (1 # 100) 36.
Proof.
  assert (C : 0 < 2) by reflexivity.
  exact (emi_scales powZ 2 300000 (1 # 100) 36 C).
Defined.


Lemma disabled_offset_is_inert_witness :
  simulateLoan powZ (withOD cfgPlain (mkOD false 500000 10000 2 200000))
  = simulateLoan powZ cfgPlain.
Proof.
  assert (H1 : enabled (od cfgPlain) = false) by reflexivity.
  assert (H2 : enabled (mkOD false 500000 10000 2 200000) = false)
    by reflexivity.
  exact (proj1 (disabled_offset_is_inert powZ cfgPlain _ H1 H2)).
Defined.

Lemma chart_series_witness :
  getProp "Loan A Principal"
          (chartPoint (simulateLoan powZ cfgPlain) (simulateLoan powZ cfgOffset)
                      "Loan A" "Loan B" 0)
  = Some (rowField closingPrincipal (rows (simulateLoan powZ cfgPlain)) 0).
Proof.
  assert (N : "Loan A"%string <> "Loan B"%string) by discriminate.
  assert (H : nth_error (mergeForChart (simulateLoan powZ cfgPlain)
                                       (simulateLoan powZ cfgOffset)
                                       "Loan A" "Loan B") 0
              = Some (chartPoint (simulateLoan powZ cfgPlain)
                                 (simulateLoan powZ cfgOffset)
                                 "Loan A" "Loan B" 0))
    by (vm_compute; reflexivity).
  exact (proj1 (chart_series _ _ _ _ 0 _ N H)).
Defined.

Lemma chart_label_collision_witness :
  getProp "Loan Principal"
          (chartPoint (simulateLoan powZ cfgPlain) (simulateLoan powZ cfgOffset)
                      "Loan" "Loan" 0)
  = Some (rowField closingPrincipal (rows (simulateLoan powZ cfgOffset)) 0).
Proof.
  assert (H : nth_error (mergeForChart (simulateLoan powZ cfgPlain)
                                       (simulateLoan powZ cfgOffset)
                                       "Loan" "Loan") 0
              = Some (chartPoint (simulateLoan powZ cfgPlain)
                                 (simulateLoan powZ cfgOffset)
                                 "Loan" "Loan" 0))
    by (vm_compute; reflexivity).
  exact (proj1 (proj2 (chart_label_collision _ _ _ 0 _ H))).
Defined.

Lemma edited_loans_simulate_within_bounds_witness :
  effectivePrincipal
    (monthRow (fold_left applyEdit [EditStartSavings (-5); EditYears (5 # 2)] loanA)
       (initState powZ
          (fold_left applyEdit [EditStartSavings (-5); EditYears (5 # 2)] loanA)))
  <= openingPrincipal
       (monthRow (fold_left applyEdit [EditStartSavings (-5); EditYears (5 # 2)] loanA)
          (initState powZ
             (fold_left applyEdit [EditStartSavings (-5); EditYears (5 # 2)] loanA))).
Proof.
  assert (C : loanA = loanA \/ loanA = loanB) by (left; reflexivity).
  assert (I : In (monthRow
                    (fold_left applyEdit
                       [EditStartSavings (-5); EditYears (5 # 2)] loanA)
                    (initState powZ
                       (fold_left applyEdit
                          [EditStartSavings (-5); EditYears (5 # 2)] loanA)))
                 (rows (simulateLoan powZ
                          (fold_left applyEdit
                             [EditStartSavings (-5); EditYears (5 # 2)] loanA)))).
  { apply (nth_error_In _ 0). apply rows_first. reflexivity. }
  exact (proj1 (edited_loans_simulate_within_bounds powZ _ loanA _ C I)).
Defined.

Lemma transfer_months_witness :
  closingSavings (monthRow cfgOffset (initState powZ cfgOffset))
  == savingsAfterIncrement cfgOffset (while cfgOffset 0 (initState powZ cfgOffset))
     - transferAmount cfgOffset (while cfgOffset 0 (initState powZ cfgOffset)).
Proof.
  assert (E : enabled (od cfgOffset) = true) by reflexivity.
  assert (Y : partFromSavingsEveryYYears (od cfgOffset) == ofNat 1)
    by reflexivity.
  assert (H : nth_error (rows (simulateLoan powZ cfgOffset)) 0
              = Some (monthRow cfgOffset (initState powZ cfgOffset)))
    by (apply rows_first; reflexivity).
  exact (proj2 (transfer_months powZ cfgOffset 1 0 _ E Y H)).
Defined.
